(** * Date tasks (task/03-date-tasks.js): a shallow embedding and its properties

    The module exports five functions over JavaScript [Date] values:
    [parseDataFromRfc2822], [parseDataFromIso8601], [isLeapYear],
    [timeSpanToString] and [angleBetweenClockHands].

    Numbers.  A JavaScript Number is an IEEE 754 binary64 value.  The
    integer-valued code ([isLeapYear], [timeSpanToString], the [Date]
    accessors) only ever holds integers and [NaN].  It is modelled on [number]
    (an integer or [NaN]): [+], [-] and [*] round their exact result to
    binary64 ([round64], which changes nothing up to 2^53), and [/] gives the
    correctly rounded quotient as a rational ([fl_div]).  A number is
    printed as the shortest decimal that denotes it ([shortest_decimal]).
    Overflow and subnormal quotients are not modelled: on valid dates every
    value of the module stays below 2^57 and every quotient above 2^-22.
    [angleBetweenClockHands] multiplies by [Math.PI]; it is modelled on Rocq's
    primitive binary64 floats, operation for operation. *)

From Stdlib Require Import ZArith QArith Qround Bool List String Ascii Lia.
From Stdlib Require Import Floats Uint63.
From Equations Require Import Equations.
Import ListNotations.

Local Open Scope string_scope.
Local Open Scope Z_scope.

(** ** JavaScript numbers, integer-valued fragment *)

Module JS.

(** An integral Number, or NaN. *)
Inductive number : Type :=
| NaN
| Int (z : Z).

(** The result of a division: an exact rational, or NaN. *)
Inductive quotient : Type :=
| QNaN
| Quo (q : Q).

Definition inj (n : number) : quotient :=
  match n with
  | NaN => QNaN
  | Int z => Quo (inject_Z z)
  end.

Coercion Int : Z >-> number.
Coercion inj : number >-> quotient.

(** *** Rounding to binary64

    [rne_div a b] is [a / b] rounded to the nearest integer, ties to the even
    one ([0 <= a], [0 < b]).  A binary64 value has a significand of 53 bits:
    an integer of magnitude up to 2^53 is one, and above that the integer is
    rounded at the scale [2^(Z.log2 m - 52)] of its binade. *)

Definition rne_div (a b : Z) : Z :=
  let q := a / b in
  let r := a mod b in
  if 2 * r <? b then q
  else if b <? 2 * r then q + 1
  else if Z.even q then q else q + 1.

Definition round64 (x : Z) : Z :=
  let m := Z.abs x in
  if m <? 2 ^ 53 then x
  else let j := Z.log2 m - 52 in
       Z.sgn x * (rne_div m (2 ^ j) * 2 ^ j).

(** [floor (log2 (a / b))] for [0 < a] and [0 < b]. *)
Definition quot_exponent (a b : Z) : Z :=
  if b <=? a then Z.log2 (a / b) else - Z.log2_up ((b + a - 1) / a).

(** The binary64 quotient of two integers ([y <> 0]): the significand is
    [|x| / |y|] scaled into [2^52, 2^53] and rounded to the nearest integer,
    ties to even. *)
Definition fl_div (x y : Z) : Q :=
  let a := Z.abs x in
  let b := Z.abs y in
  let s := Z.sgn x * Z.sgn y in
  if a =? 0 then 0%Q
  else
    let sh := 52 - quot_exponent a b in
    if 0 <=? sh then (s * rne_div (a * 2 ^ sh) b) # Z.to_pos (2 ^ sh)
    else inject_Z (s * (rne_div a (b * 2 ^ (- sh)) * 2 ^ (- sh))).

Definition add (a b : number) : number :=
  match a, b with
  | Int x, Int y => Int (round64 (x + y))
  | _, _ => NaN
  end.

Definition sub (a b : number) : number :=
  match a, b with
  | Int x, Int y => Int (round64 (x - y))
  | _, _ => NaN
  end.

Definition mul (a b : number) : number :=
  match a, b with
  | Int x, Int y => Int (round64 (x * y))
  | _, _ => NaN
  end.

(** [a % b]: the remainder takes the sign of the dividend ([Z.rem]); a zero
    divisor gives NaN. *)
Definition rem (a b : number) : number :=
  match a, b with
  | Int x, Int y => if y =? 0 then NaN else Int (Z.rem x y)
  | _, _ => NaN
  end.

(** [a / b].  Every divisor in the module is a non-zero literal; on a zero
    divisor (an infinity or NaN in JavaScript) the model yields NaN. *)
Definition div (a b : number) : quotient :=
  match a, b with
  | Int x, Int y => if y =? 0 then QNaN else Quo (fl_div x y)
  | _, _ => QNaN
  end.

Definition Math_abs (a : number) : number :=
  match a with
  | Int x => Int (Z.abs x)
  | NaN => NaN
  end.

Definition Math_floor (a : quotient) : number :=
  match a with
  | Quo q => Int (Qfloor q)
  | QNaN => NaN
  end.

(** Relational operators: any comparison with NaN is false. *)
Definition ltb (a b : quotient) : bool :=
  match a, b with
  | Quo x, Quo y => match (x ?= y)%Q with Lt => true | _ => false end
  | _, _ => false
  end.

Definition gtb (a b : quotient) : bool := ltb b a.

Definition geb (a b : quotient) : bool :=
  match a, b with
  | Quo x, Quo y => match (x ?= y)%Q with Lt => false | _ => true end
  | _, _ => false
  end.

(** [a != b] on integral numbers: true as soon as one side is NaN. *)
Definition neq (a b : number) : bool :=
  match a, b with
  | Int x, Int y => negb (x =? y)
  | _, _ => true
  end.

(** ToNumber and ToBoolean, as used by [Math.floor(x < 10)] in a condition. *)
Definition of_bool (b : bool) : number := if b then Int 1 else Int 0.

Definition truthy (a : number) : bool :=
  match a with
  | Int x => negb (x =? 0)
  | NaN => false
  end.

(** *** Number to string *)

Definition digit_char (d : Z) : ascii := ascii_of_N (Z.to_N (48 + d)).

(** The decimal digits of a non-negative integer, most significant first. *)
Equations? digits (n : Z) : string by wf (Z.to_nat (Z.log2 n)) lt :=
  digits n with Z_lt_dec n 10 := {
    | left _ := String (digit_char n) EmptyString;
    | right _ := digits (n / 10) ++ String (digit_char (n mod 10)) EmptyString }.
Proof.
  assert (Hq : 0 < n / 10) by (apply Z.div_str_pos; lia).
  assert (H2 : 2 * (n / 10) <= n) by (pose proof (Z.mul_div_le n 10); lia).
  pose proof (Z.log2_le_mono _ _ H2) as Hl.
  rewrite Z.log2_double in Hl by assumption.
  pose proof (Z.log2_nonneg (n / 10)). lia.
Qed.

(** Number::toString prints the decimal with the fewest significant digits
    that still denotes the Number, the closest to it if there are several.
    For an integer up to 2^53 that is the integer itself.  Above, where
    binary64 values are 2 or more apart, it can be a rounder neighbour:
    2^54 + 8 prints as 18014398509481990.

    [decimal_candidate v p]: of the two multiples of [p] around [v], one
    that rounds to [v]; the closer one if both do, the one with the even
    factor if they are as close. *)
Definition decimal_candidate (v p : Z) : option Z :=
  let lo := v / p * p in
  let hi := lo + p in
  let ok_lo := round64 lo =? v in
  let ok_hi := round64 hi =? v in
  if ok_lo && ok_hi then
    Some (if v - lo <? hi - v then lo
          else if hi - v <? v - lo then hi
          else if Z.even (v / p) then lo else hi)
  else if ok_lo then Some lo
  else if ok_hi then Some hi
  else None.

(** The largest power of ten, from [10^m] down, with such a multiple. *)
Fixpoint shortest_search (m : nat) (v : Z) : Z :=
  match m with
  | O => v
  | S m' =>
      match decimal_candidate v (10 ^ Z.of_nat m) with
      | Some w => w
      | None => shortest_search m' v
      end
  end.

(** The integer whose digits are printed for the binary64 integer [v]. *)
Definition shortest_decimal (v : Z) : Z :=
  if v <=? 2 ^ 53 then v else shortest_search (Z.to_nat (Z.log2 v)) v.

(** Number::toString for the values the module converts: NaN and integers
    (of magnitude below 10^21, where JavaScript uses no exponent). *)
Definition NumberToString (a : number) : string :=
  match a with
  | NaN => "NaN"
  | Int z =>
      if z <? 0 then "-" ++ digits (shortest_decimal (- z))
      else digits (shortest_decimal z)
  end.

(** A variable that holds a string on some paths and a number on others. *)
Inductive value : Type :=
| Str (s : string)
| Num (n : number).

Definition ToString (v : value) : string :=
  match v with
  | Str s => s
  | Num n => NumberToString n
  end.

(** [s + n] with a string on the left is concatenation with ToString(n). *)
Definition str_add_num (s : string) (n : number) : string := s ++ NumberToString n.

(** [v + s] and [s + v] with a string on one side. *)
Definition val_add_str (v : value) (s : string) : string := ToString v ++ s.
Definition str_add_val (s : string) (v : value) : string := s ++ ToString v.

End JS.

Import JS.

Declare Scope js_scope.
Delimit Scope js_scope with js.
Bind Scope js_scope with number.
Bind Scope js_scope with quotient.
Infix "+" := JS.add : js_scope.
Infix "-" := JS.sub : js_scope.
Infix "*" := JS.mul : js_scope.
Infix "/" := JS.div : js_scope.
Infix "%" := JS.rem (at level 40, left associativity) : js_scope.
Infix "<?" := JS.ltb : js_scope.
Infix ">?" := JS.gtb : js_scope.
Infix ">=?" := JS.geb : js_scope.
Infix "!=" := JS.neq (at level 70, no associativity) : js_scope.

(** ** Dates *)

Definition HoursPerDay : Z := 24.
Definition MinutesPerHour : Z := 60.
Definition msPerSecond : Z := 1000.
Definition msPerMinute : Z := 60000.
Definition msPerHour : Z := 3600000.
Definition msPerDay : Z := 86400000.

(** A Date object holds a time value: milliseconds since 1970-01-01T00:00Z,
    or NaN (an Invalid Date). *)
Record Date : Type := mkDate { DateValue : number }.

Definition InvalidDate : Date := mkDate NaN.

(** [TimeClip]: a time value out of the range of Date is NaN. *)
Definition TimeClip (t : number) : number :=
  match t with
  | Int z => if Z.abs z <=? 8640000000000000 then Int z else NaN
  | NaN => NaN
  end.

(** [new Date(t)] for a number [t], and [new Date(d)] for a date [d]. *)
Definition new_Date_number (t : number) : Date := mkDate (TimeClip t).
Definition new_Date_copy (d : Date) : Date := mkDate (DateValue d).

(** [endDate - startDate]: both operands are converted by [valueOf]. *)
Definition date_sub (a b : Date) : number := (DateValue a - DateValue b)%js.

Definition HourFromTime (t : Z) : Z := (t / msPerHour) mod HoursPerDay.
Definition MinFromTime (t : Z) : Z := (t / msPerMinute) mod MinutesPerHour.

Definition getUTCHours (d : Date) : number :=
  match DateValue d with
  | Int t => Int (HourFromTime t)
  | NaN => NaN
  end.

Definition getUTCMinutes (d : Date) : number :=
  match DateValue d with
  | Int t => Int (MinFromTime t)
  | NaN => NaN
  end.

(** *** The year of a time value *)

Definition Day (t : Z) : Z := t / msPerDay.

Definition DayFromYear (y : Z) : Z :=
  365 * (y - 1970) + (y - 1969) / 4 - (y - 1901) / 100 + (y - 1601) / 400.

Definition TimeFromYear (y : Z) : Z := msPerDay * DayFromYear y.

(** The largest [y] with [TimeFromYear y <= t]: an estimate from the mean
    length of a Gregorian year, corrected by at most one year. *)
Definition YearFromTime (t : Z) : Z :=
  let d := Day t in
  let y := 1970 + (400 * d) / 146097 in
  if d <? DayFromYear y then y - 1
  else if DayFromYear (y + 1) <=? d then y + 1
  else y.

Definition DaysInYear (y : Z) : Z :=
  if (y mod 4 =? 0) && (negb (y mod 100 =? 0) || (y mod 400 =? 0)) then 366 else 365.

(** *** Building time values: MakeTime, MakeDay, MakeDate, Date.UTC *)

Definition MakeTime (hour min sec ms : Z) : Z :=
  hour * msPerHour + min * msPerMinute + sec * msPerSecond + ms.

(** Days from the start of a year to the start of its month [m] (0-11). *)
Definition DaysBeforeMonth (leap m : Z) : Z :=
  nth (Z.to_nat m)
      [0; 31; 59 + leap; 90 + leap; 120 + leap; 151 + leap; 181 + leap;
       212 + leap; 243 + leap; 273 + leap; 304 + leap; 334 + leap] 0.

Definition MakeDay (year month date : Z) : Z :=
  let ym := year + month / 12 in
  let mn := month mod 12 in
  DayFromYear ym + DaysBeforeMonth (DaysInYear ym - 365) mn + date - 1.

Definition MakeDate (day time : Z) : Z := day * msPerDay + time.

(** [Date.UTC(year, month, date, hours, minutes, seconds, ms)]; a year from 0
    to 99 stands for 1900 + year. *)
Definition Date_UTC (year month date hours minutes seconds ms : Z) : number :=
  let yr := if (0 <=? year) && (year <=? 99) then 1900 + year else year in
  TimeClip (Int (MakeDate (MakeDay yr month date) (MakeTime hours minutes seconds ms))).

(** ** The host environment

    Two things the module reads from its host: the local time zone
    adjustment and [Date.parse], which the [Date] constructor applies to a
    string. *)

Section Host.

Variable LocalTZA : Z -> Z.
Variable Date_parse : string -> number.

Definition LocalTime (t : Z) : Z := t + LocalTZA t.

Definition getFullYear (d : Date) : number :=
  match DateValue d with
  | Int t => Int (YearFromTime (LocalTime t))
  | NaN => NaN
  end.

(** [new Date(value)] for a string [value]. *)
Definition new_Date_string (value : string) : Date :=
  mkDate (TimeClip (Date_parse value)).

(** ** The module's functions *)

(** [parseDataFromRfc2822] and [parseDataFromIso8601] (lines 24-26 and
    39-41): both are [return new Date(value)]. *)
Definition parseDataFromRfc2822 (value : string) : Date :=
  new_Date_string value.

Definition parseDataFromIso8601 (value : string) : Date :=
  new_Date_string value.

(** [isLeapYear] (lines 58-68). *)
Definition isLeapYear (date : Date) : bool :=
  let year := getFullYear date in
  if (year % 4 != 0)%js then false
  else if (year % 100 != 0)%js then true
  else if (year % 400 != 0)%js then false
  else true.

End Host.

(** [timeSpanToString] (lines 86-119).  [h], [m], [s] and [ms] hold a string
    or a number; [temp] accumulates what the fields written so far account
    for.  The tests on the minutes and the seconds are
    [Math.floor((x / k) < 10)]: the floor of a boolean. *)
Definition timeSpanToString (startDate endDate : Date) : string :=
  let h := Str "00" in
  let m := Str "00" in
  let s := Str "00" in
  let ms := Str "000" in
  let temp : number := 0 in
  let time := date_sub endDate startDate in
  let '(h, temp) :=
    if (Math_floor (time / 3600000) >? 0)%js then
      (if (Math_floor (time / 3600000) <? 10)%js
       then Str (str_add_num "0" (Math_floor (time / 3600000)))
       else Num (Math_floor (time / 3600000)),
       (temp + Math_floor (time / 3600000) * 3600000)%js)
    else (h, temp) in
  let '(m, temp) :=
    if (Math_floor (Math_abs (temp - time) / 60000) >? 0)%js then
      (if truthy (Math_floor (of_bool (Math_abs (temp - time) / 60000 <? 10)%js))
       then Str (str_add_num "0" (Math_floor (Math_abs (temp - time) / 60000)))
       else Num (Math_floor (Math_abs (temp - time) / 60000)),
       (temp + Math_floor (Math_abs (temp - time) / 60000) * 60000)%js)
    else (m, temp) in
  let '(s, temp) :=
    if (Math_floor (Math_abs (temp - time) / 1000) >? 0)%js then
      (if truthy (Math_floor (of_bool (Math_abs (temp - time) / 1000 <? 10)%js))
       then Str (str_add_num "0" (Math_floor (Math_abs (temp - time) / 1000)))
       else Num (Math_floor (Math_abs (temp - time) / 1000)),
       (temp + Math_floor (Math_abs (temp - time) / 1000) * 1000)%js)
    else (s, temp) in
  let ms :=
    if (Math_abs (temp - time) >? 0)%js then
      if (Math_abs (temp - time) <? 10)%js
      then Str (str_add_num "00" (Math_abs (temp - time)))
      else if (Math_abs (temp - time) <? 100)%js
      then Str (str_add_num "0" (Math_abs (temp - time)))
      else Num (Math_abs (temp - time))
    else ms in
  str_add_val
    (str_add_val (str_add_val (val_add_str h ":") m ++ ":") s ++ ".") ms.

(** *** Binary64 numbers for the clock angle *)

Definition Math_PI : float := 0x1.921fb54442d18p+1%float.

(** An integer as a binary64 value (exact below 2^53). *)
Definition float_of_Z (z : Z) : float :=
  if z <? 0 then PrimFloat.opp (PrimFloat.of_uint63 (Uint63.of_Z (- z)))
  else PrimFloat.of_uint63 (Uint63.of_Z z).

Definition to_float (n : number) : float :=
  match n with
  | Int z => float_of_Z z
  | NaN => PrimFloat.nan
  end.

(** The rational a finite binary64 value stands for (0 for the others): used
    to compare the integer layer with the primitive floats on samples. *)
Definition float_value (f : float) : Q :=
  match Prim2SF f with
  | SpecFloat.S754_finite s m e =>
      let v := if s then Z.neg m else Z.pos m in
      if 0 <=? e then inject_Z (v * 2 ^ e) else v # Z.to_pos (2 ^ (- e))
  | _ => 0%Q
  end.

(** [angleBetweenClockHands] (lines 135-145).  The test [angle > 180] comes
    before [Math.abs]. *)
Definition angleBetweenClockHands (date : Date) : float :=
  let time := new_Date_copy date in
  let h := to_float (getUTCHours time) in
  let m := to_float (getUTCMinutes time) in
  let angle := 0%float in
  let h := if (12 <=? h)%float then (h - 12)%float else h in
  let angle := ((h * 60 + m) / 2 - 6 * m)%float in
  let angle := if (180 <? angle)%float then (360 - angle)%float else angle in
  (PrimFloat.abs angle * Math_PI / 180)%float.

(** ** Reference definitions for the specification

    None of these is part of the module; they state what the specification
    compares the module with. *)

(** The clock-angle algorithm in the specification's words: reduce the hour
    modulo 12, form the signed angle in degrees, take its absolute value, fold
    an angle above 180 into [360 - angle], convert to radians. *)
Definition angleBetweenHands_spec (date : Date) : float :=
  let h := to_float (getUTCHours date) in
  let m := to_float (getUTCMinutes date) in
  let h := if (12 <=? h)%float then (h - 12)%float else h in
  let angle := ((h * 60 + m) / 2 - 6 * m)%float in
  let angle := PrimFloat.abs angle in
  let angle := if (180 <? angle)%float then (360 - angle)%float else angle in
  (angle * Math_PI / 180)%float.

Fixpoint zeros (k : nat) : string :=
  match k with
  | O => EmptyString
  | S k' => String "0" (zeros k')
  end.

(** A string padded with zeros on the left up to [width] characters. *)
Definition padStart (width : nat) (s : string) : string :=
  zeros (width - String.length s) ++ s.

(** The timespan format in the specification's words: successive integer
    division by 3,600,000, 60,000, 1,000 and 1, each remainder cascading to the
    next unit; hours, minutes and seconds padded to two digits, milliseconds
    to three. *)
Definition formatTimespan_spec (d : Z) : string :=
  let hours := d / 3600000 in
  let r := d mod 3600000 in
  let minutes := r / 60000 in
  let r := r mod 60000 in
  let seconds := r / 1000 in
  let r := r mod 1000 in
  let millis := r / 1 in
  padStart 2 (digits hours) ++ ":" ++ padStart 2 (digits minutes) ++ ":"
    ++ padStart 2 (digits seconds) ++ "." ++ padStart 3 (digits millis).

(** *** Scanning decimal fields *)

Module Scan.

Definition is_digit (c : ascii) : bool :=
  let n := N_of_ascii c in ((48 <=? n) && (n <=? 57))%N.

Definition digit_value (c : ascii) : Z := Z.of_N (N_of_ascii c) - 48.

(** Exactly [k] digits. *)
Fixpoint read_digits (k : nat) (acc : Z) (s : string) : option (Z * string) :=
  match k with
  | O => Some (acc, s)
  | S k' =>
      match s with
      | String c r =>
          if is_digit c then read_digits k' (10 * acc + digit_value c) r else None
      | EmptyString => None
      end
  end.

(** The longest run of digits, with its length. *)
Fixpoint span_digits (s : string) (acc : Z) (k : nat) : Z * nat * string :=
  match s with
  | String c r =>
      if is_digit c then span_digits r (10 * acc + digit_value c) (S k)
      else (acc, k, s)
  | EmptyString => (acc, k, s)
  end.

Definition expect (c : ascii) (s : string) : option string :=
  match s with
  | String c' r => if Ascii.eqb c c' then Some r else None
  | EmptyString => None
  end.

Fixpoint strip_prefix (p s : string) : option string :=
  match p, s with
  | EmptyString, _ => Some s
  | String a p', String b s' => if Ascii.eqb a b then strip_prefix p' s' else None
  | String _ _, EmptyString => None
  end.

(** The index (from [i]) of the first name that starts [s]. *)
Fixpoint read_name (names : list string) (i : Z) (s : string) : option (Z * string) :=
  match names with
  | [] => None
  | n :: rest =>
      match strip_prefix n s with
      | Some r => Some (i, r)
      | None => read_name rest (i + 1) s
      end
  end%list.

(** What a run of digits is and what it is worth, for the proofs. *)
Fixpoint all_digits (s : string) : bool :=
  match s with
  | EmptyString => true
  | String c r => is_digit c && all_digits r
  end.

Fixpoint value_from (s : string) (acc : Z) : Z :=
  match s with
  | EmptyString => acc
  | String c r => value_from r (10 * acc + digit_value c)
  end.

End Scan.

Import Scan.

Notation "x <- e ;; k" := (match e with Some x => k | None => None end)
  (at level 61, e at next level, right associativity, only parsing).
Notation "' p <- e ;; k" := (match e with Some p => k | None => None end)
  (at level 61, p pattern, e at next level, right associativity, only parsing).

(** A reference parser for the [HH:mm:ss.sss] format: at least two digits of
    hours, two of minutes, two of seconds, three of milliseconds, and nothing
    else; the value is the millisecond count. *)
Definition parseTimespan_ref (s : string) : option Z :=
  let '(hours, k, s) := span_digits s 0 0 in
  if (k <? 2)%nat then None else
  s <- expect ":" s ;;
  '(minutes, s) <- read_digits 2 0 s ;;
  s <- expect ":" s ;;
  '(seconds, s) <- read_digits 2 0 s ;;
  s <- expect "." s ;;
  '(millis, s) <- read_digits 3 0 s ;;
  match s with
  | EmptyString =>
      if (minutes <? 60) && (seconds <? 60)
      then Some (hours * 3600000 + minutes * 60000 + seconds * 1000 + millis)
      else None
  | String _ _ => None
  end.

(** *** The two date grammars

    Reference readers for the two formats the parsing functions are named
    after: the complete ISO 8601 form [YYYY-MM-DDTHH:mm:ss(.sss)(Z|+HH:mm)] and
    the RFC 2822 [date-time] ([Tue, 26 Jan 2016 13:48:02 +0100]).  Each returns
    the instant the string denotes: the fields read as UTC, minus the zone
    offset. *)

Module Grammar.

Definition DaysInMonth (year month : Z) : Z :=
  let leap := DaysInYear year - 365 in
  if month =? 11 then 31
  else DaysBeforeMonth leap (month + 1) - DaysBeforeMonth leap month.

Definition valid_fields (year month day hour min sec : Z) : bool :=
  (1 <=? month) && (month <=? 12) && (1 <=? day)
  && (day <=? DaysInMonth year (month - 1))
  && (hour <? 24) && (min <? 60) && (sec <? 60).

Definition instant (year month day hour min sec ms offset : Z) : Z :=
  MakeDate (MakeDay year (month - 1) day) (MakeTime hour min sec ms) - offset.

Definition at_end (s : string) : bool :=
  match s with
  | EmptyString => true
  | String _ _ => false
  end.

(** [Z], or a sign and [HH:mm]: the offset in milliseconds. *)
Definition iso_zone (s : string) : option Z :=
  match s with
  | String c r =>
      if Ascii.eqb c "Z" then (if at_end r then Some 0 else None)
      else if Ascii.eqb c "+" || Ascii.eqb c "-" then
        '(hh, r) <- read_digits 2 0 r ;;
        r <- expect ":" r ;;
        '(mm, r) <- read_digits 2 0 r ;;
        if at_end r && (hh <? 24) && (mm <? 60)
        then Some ((if Ascii.eqb c "-" then -1 else 1)
                   * (hh * msPerHour + mm * msPerMinute))
        else None
      else None
  | EmptyString => None
  end.

Definition parse_iso8601 (s : string) : option Z :=
  '(year, s) <- read_digits 4 0 s ;;
  s <- expect "-" s ;;
  '(month, s) <- read_digits 2 0 s ;;
  s <- expect "-" s ;;
  '(day, s) <- read_digits 2 0 s ;;
  s <- expect "T" s ;;
  '(hour, s) <- read_digits 2 0 s ;;
  s <- expect ":" s ;;
  '(min, s) <- read_digits 2 0 s ;;
  s <- expect ":" s ;;
  '(sec, s) <- read_digits 2 0 s ;;
  '(ms, s) <- match expect "." s with
              | Some r => read_digits 3 0 r
              | None => Some (0, s)
              end ;;
  offset <- iso_zone s ;;
  if valid_fields year month day hour min sec
  then Some (instant year month day hour min sec ms offset)
  else None.

Definition day_names : list string :=
  ["Mon"; "Tue"; "Wed"; "Thu"; "Fri"; "Sat"; "Sun"]%list.

Definition month_names : list string :=
  ["Jan"; "Feb"; "Mar"; "Apr"; "May"; "Jun";
   "Jul"; "Aug"; "Sep"; "Oct"; "Nov"; "Dec"]%list.

(** The zone names of RFC 2822 with their offsets in hours. *)
Definition zone_names : list (string * Z) :=
  [("UT", 0); ("GMT", 0); ("EST", -5); ("EDT", -4); ("CST", -6);
   ("CDT", -5); ("MST", -7); ("MDT", -6); ("PST", -8); ("PDT", -7)]%list.

Fixpoint named_zone (zs : list (string * Z)) (s : string) : option Z :=
  match zs with
  | [] => None
  | (n, h) :: rest =>
      if String.eqb n s then Some (h * msPerHour) else named_zone rest s
  end%list.

(** A sign and [HHmm], or a zone name: the offset in milliseconds. *)
Definition rfc_zone (s : string) : option Z :=
  match s with
  | String c r =>
      if Ascii.eqb c "+" || Ascii.eqb c "-" then
        '(hh, r) <- read_digits 2 0 r ;;
        '(mm, r) <- read_digits 2 0 r ;;
        if at_end r && (mm <? 60)
        then Some ((if Ascii.eqb c "-" then -1 else 1)
                   * (hh * msPerHour + mm * msPerMinute))
        else None
      else named_zone zone_names s
  | EmptyString => None
  end.

Definition parse_rfc2822 (s : string) : option Z :=
  s <- match read_name day_names 0 s with
       | Some (_, r) => r <- expect "," r ;; expect " " r
       | None => Some s
       end ;;
  let '(day, k, s) := span_digits s 0 0 in
  if negb ((1 <=? k) && (k <=? 2))%nat then None else
  s <- expect " " s ;;
  '(month, s) <- read_name month_names 1 s ;;
  s <- expect " " s ;;
  '(year, s) <- read_digits 4 0 s ;;
  s <- expect " " s ;;
  '(hour, s) <- read_digits 2 0 s ;;
  s <- expect ":" s ;;
  '(min, s) <- read_digits 2 0 s ;;
  '(sec, s) <- match expect ":" s with
               | Some r => read_digits 2 0 r
               | None => Some (0, s)
               end ;;
  s <- expect " " s ;;
  offset <- rfc_zone s ;;
  if valid_fields year month day hour min sec
  then Some (instant year month day hour min sec 0 offset)
  else None.

Definition is_some {A : Type} (o : option A) : bool :=
  match o with
  | Some _ => true
  | None => false
  end.

Definition conforms_rfc2822 (s : string) : bool := is_some (parse_rfc2822 s).
Definition conforms_iso8601 (s : string) : bool := is_some (parse_iso8601 s).

(** A stand-in for a host: a [Date.parse] that reads these two formats and
    nothing else.  An engine accepts more (legacy formats such as
    [December 17, 1995 03:24:00]; some normalise an out-of-range day), and the
    properties of the parsing functions below are stated for every host. *)
Definition reference_Date_parse (s : string) : number :=
  match parse_iso8601 s with
  | Some t => Int t
  | None =>
      match parse_rfc2822 s with
      | Some t => Int t
      | None => NaN
      end
  end.

End Grammar.

Import Grammar.

(** A parser rejects what its grammar rejects. *)
Definition rejects_nonconforming (conforms : string -> bool)
  (parse : string -> Date) : Prop :=
  forall s, conforms s = false -> parse s = InvalidDate.

(** A Date holds an instant (is not an Invalid Date). *)
Definition is_valid (d : Date) : bool :=
  match DateValue d with
  | Int _ => true
  | NaN => false
  end.

(** *** The run of timeSpanToString on integers

    [fdiv x k] is [Math.floor(x / k)].  With [d] the span and [t] the value
    of [temp] before a field, [stage_field] is the field
    [Math.floor(Math.abs(temp - time) / k)] and [stage_temp] the value of
    [temp] after it; [hours_temp] is [temp] after the hours. *)

Definition fdiv (x k : Z) : Z := Qfloor (fl_div x k).

Definition hours_temp (d : Z) : Z :=
  if 0 <? fdiv d 3600000 then round64 (0 + round64 (fdiv d 3600000 * 3600000))
  else 0.

Definition stage_field (t d k : Z) : Z := fdiv (Z.abs (round64 (t - d))) k.

Definition stage_temp (t d k : Z) : Z :=
  if 0 <? stage_field t d k then round64 (t + round64 (stage_field t d k * k))
  else t.

(** *** Clock faces

    The date on 1970-01-01 that shows [h]:[m] UTC, the times at which the hour
    hand is more than 180 degrees behind the minute hand
    ([30 h - 5.5 m < -180] with [h] reduced modulo 12), and what the clock
    angle does at one time: used to go through the 1440 faces of a day. *)

Definition at_clock (h m : Z) : Date := mkDate (Int (MakeTime h m 0 0)).

Definition far_behind (h m : Z) : bool := 60 * (h mod 12) - 11 * m <? -360.

Definition angle_check (h m : Z) : bool :=
  let d := at_clock h m in
  if far_behind h m
  then (Math_PI <? angleBetweenClockHands d)%float
  else PrimFloat.Leibniz.eqb (angleBetweenClockHands d) (angleBetweenHands_spec d)
       && (0 <=? angleBetweenClockHands d)%float
       && (angleBetweenClockHands d <=? Math_PI)%float.

(** * Properties *)

(** ** Rounding to binary64 *)

Section Rounding.

Lemma rne_div_bounds (a b : Z) :
  0 < b -> a / b <= rne_div a b <= a / b + 1.
Proof.
  intros Hb. unfold rne_div.
  destruct (2 * (a mod b) <? b); [lia|].
  destruct (b <? 2 * (a mod b)); [lia|].
  destruct (Z.even (a / b)); lia.
Qed.

Lemma rne_div_up (a b : Z) :
  0 < b -> rne_div a b = a / b + 1 -> b <= 2 * (a mod b).
Proof.
  intros Hb. unfold rne_div.
  destruct (Z.ltb_spec (2 * (a mod b)) b); [lia|]. intros _. assumption.
Qed.

Lemma rne_div_nonneg (a b : Z) : 0 <= a -> 0 < b -> 0 <= rne_div a b.
Proof.
  intros Ha Hb. pose proof (rne_div_bounds a b Hb).
  pose proof (Z.div_pos a b Ha Hb). lia.
Qed.

Lemma rne_div_exact (a b : Z) : 0 < b -> (b | a) -> rne_div a b = a / b.
Proof.
  intros Hb Hd. unfold rne_div.
  apply Z.mod_divide in Hd; [|lia]. rewrite Hd.
  destruct (Z.ltb_spec (2 * 0) b); [reflexivity | lia].
Qed.

(** The floor of a quotient rounded at scale [P] is the exact floor when the
    quotient stays more than half a unit of the scale below the next integer:
    numerator and divisor are multiples of [g], and [k < 2 P g]. *)
Lemma rne_div_scaled_floor (x k P g : Z) :
  0 <= x -> 0 < k -> 0 < P -> 0 < g -> (g | x) -> (g | k) -> k < 2 * P * g ->
  rne_div (x * P) k / P = x / k.
Proof.
  intros Hx Hk HP Hg [u Hu] [v Hv] Hlt.
  pose proof (Z.div_mod x k ltac:(lia)) as Ex.
  pose proof (Z.mod_pos_bound x k Hk) as Hr.
  set (N := x / k) in *. set (r := x mod k) in *.
  assert (Hgr : g <= k - r).
  { assert (Hd : (g | k - r)).
    { exists (v - u + v * N). subst x k. lia. }
    destruct Hd as [w Hw]. assert (0 < w) by nia. nia. }
  pose proof (Z.div_mod (x * P) k ltac:(lia)) as EA.
  pose proof (Z.mod_pos_bound (x * P) k Hk) as HR.
  pose proof (rne_div_bounds (x * P) k Hk) as Hb.
  pose proof (rne_div_up (x * P) k Hk) as Hup.
  set (Q := x * P / k) in *. set (R := (x * P) mod k) in *.
  set (n := rne_div (x * P) k) in *.
  assert (HQlo : N * P <= Q).
  { unfold Q. apply Z.div_le_lower_bound; [lia|]. nia. }
  assert (HQhi : Q < (N + 1) * P).
  { unfold Q. apply Z.div_lt_upper_bound; [lia|]. nia. }
  assert (Hn : N * P <= n < (N + 1) * P).
  { split; [lia|].
    destruct (Z.eq_dec n (Q + 1)) as [E|E]; [|lia].
    specialize (Hup E).
    destruct (Z.eq_dec (Q + 1) ((N + 1) * P)) as [E2|E2]; [|lia].
    exfalso.
    assert ((k - r) * P = k - R) by nia.
    nia. }
  symmetry. apply Z.div_unique with (r := n - N * P); lia.
Qed.

Lemma round64_small (x : Z) : Z.abs x <= 2 ^ 53 -> round64 x = x.
Proof.
  intros H. unfold round64.
  destruct (Z.ltb_spec (Z.abs x) (2 ^ 53)) as [|Hge]; [reflexivity|].
  assert (E : Z.abs x = 2 ^ 53) by lia. rewrite E.
  change (Z.log2 (2 ^ 53) - 52) with 1.
  change (rne_div (2 ^ 53) (2 ^ 1) * 2 ^ 1) with (2 ^ 53).
  rewrite <- E. rewrite Z.mul_comm. apply Z.abs_sgn.
Qed.

Lemma round64_opp (x : Z) : round64 (- x) = - round64 x.
Proof.
  unfold round64. rewrite Z.abs_opp, Z.sgn_opp.
  destruct (Z.abs x <? 2 ^ 53); lia.
Qed.

(** Above 2^53 the rounded value is at least 2^53. *)
Lemma round64_large (x : Z) : 2 ^ 53 <= x -> 2 ^ 53 <= round64 x.
Proof.
  intros H. unfold round64. rewrite Z.abs_eq by lia.
  destruct (Z.ltb_spec x (2 ^ 53)); [lia|].
  rewrite Z.sgn_pos by lia. rewrite Z.mul_1_l.
  assert (Hl : 53 <= Z.log2 x) by (apply Z.log2_le_pow2; lia).
  set (j := Z.log2 x - 52). assert (Hj : 1 <= j) by lia.
  assert (Hp : 0 < 2 ^ j) by (apply Z.pow_pos_nonneg; lia).
  pose proof (rne_div_bounds x (2 ^ j) Hp) as [Hlo _].
  assert (Hx : 2 ^ 52 * 2 ^ j <= x).
  { rewrite <- Z.pow_add_r by lia. replace (52 + j) with (Z.log2 x) by lia.
    apply Z.log2_spec. lia. }
  assert (2 ^ 52 <= x / 2 ^ j) by (apply Z.div_le_lower_bound; lia).
  assert (2 ^ 1 <= 2 ^ j) by (apply Z.pow_le_mono_r; lia).
  change (2 ^ 53) with (2 ^ 52 * 2 ^ 1). nia.
Qed.

Lemma round64_lower (x y : Z) : 0 <= y <= 2 ^ 53 -> y <= x -> y <= round64 x.
Proof.
  intros Hy Hxy. destruct (Z_lt_dec x (2 ^ 53)).
  - rewrite round64_small by lia. assumption.
  - pose proof (round64_large x ltac:(lia)). lia.
Qed.

Lemma round64_upper (x y : Z) : - 2 ^ 53 <= y <= 0 -> x <= y -> round64 x <= y.
Proof.
  intros Hy Hxy. pose proof (round64_lower (- x) (- y) ltac:(lia) ltac:(lia)) as H.
  rewrite round64_opp in H. lia.
Qed.

(** Between 2^53 and 2^54 the binary64 values are the even integers. *)
Lemma round64_54 (x : Z) :
  2 ^ 53 <= x < 2 ^ 54 ->
  round64 x = rne_div x 2 * 2.
Proof.
  intros [Hlo Hhi]. unfold round64. rewrite Z.abs_eq by lia.
  destruct (Z.ltb_spec x (2 ^ 53)); [lia|].
  rewrite Z.sgn_pos by lia.
  assert (E : Z.log2 x = 53).
  { apply Z.log2_unique; [lia|]. change (2 ^ Z.succ 53) with (2 ^ 54). lia. }
  rewrite E. change (2 ^ (53 - 52)) with 2. lia.
Qed.

Lemma round64_even (x : Z) :
  0 <= x <= 2 ^ 54 -> (2 | round64 x) \/ round64 x < 2 ^ 53.
Proof.
  intros H. destruct (Z_lt_dec x (2 ^ 53)).
  - right. rewrite round64_small by lia. assumption.
  - left. destruct (Z.eq_dec x (2 ^ 54)) as [->|].
    + exists (2 ^ 53). reflexivity.
    + rewrite round64_54 by lia. exists (rne_div x 2). reflexivity.
Qed.

Lemma round64_near (x : Z) :
  0 <= x < 2 ^ 54 -> x - 1 <= round64 x <= x + 1.
Proof.
  intros H. destruct (Z_lt_dec x (2 ^ 53)).
  - rewrite round64_small by lia. lia.
  - rewrite round64_54 by lia.
    pose proof (rne_div_bounds x 2 ltac:(lia)).
    pose proof (rne_div_up x 2 ltac:(lia)).
    pose proof (Z.div_mod x 2 ltac:(lia)). pose proof (Z.mod_pos_bound x 2 ltac:(lia)).
    destruct (Z.eq_dec (rne_div x 2) (x / 2 + 1)); lia.
Qed.

Lemma round64_exact_even (x : Z) :
  0 <= x < 2 ^ 54 -> (2 | x) -> round64 x = x.
Proof.
  intros H Hd. destruct (Z_lt_dec x (2 ^ 53)).
  - apply round64_small. lia.
  - rewrite round64_54 by lia. rewrite rne_div_exact by (lia || assumption).
    destruct Hd as [w ->]. rewrite Z.div_mul by lia. reflexivity.
Qed.

(** *** The printed decimal *)

Lemma decimal_candidate_rounds (v p w : Z) :
  decimal_candidate v p = Some w -> round64 w = v.
Proof.
  unfold decimal_candidate.
  destruct (Z.eqb_spec (round64 (v / p * p)) v) as [El|Nl];
    destruct (Z.eqb_spec (round64 (v / p * p + p)) v) as [Eh|Nh];
    cbn [andb]; intros H; inversion H; subst w; try assumption.
  destruct (v - v / p * p <? v / p * p + p - v); [assumption|].
  destruct (v / p * p + p - v <? v - v / p * p); [assumption|].
  destruct (Z.even (v / p)); assumption.
Qed.

Lemma shortest_search_rounds (m : nat) (v : Z) :
  shortest_search m v = v \/ round64 (shortest_search m v) = v.
Proof.
  induction m as [|m IH]; [now left|].
  cbn [shortest_search].
  destruct (decimal_candidate v (10 ^ Z.of_nat (S m))) as [w|] eqn:E; [|exact IH].
  right. exact (decimal_candidate_rounds _ _ _ E).
Qed.

Lemma shortest_decimal_small (v : Z) : v <= 2 ^ 53 -> shortest_decimal v = v.
Proof.
  intros H. unfold shortest_decimal. destruct (Z.leb_spec v (2 ^ 53)); [reflexivity | lia].
Qed.

(** What is printed rounds to the number. *)
Lemma shortest_decimal_rounds (v : Z) :
  shortest_decimal v = v \/ round64 (shortest_decimal v) = v.
Proof.
  unfold shortest_decimal. destruct (v <=? 2 ^ 53); [now left|].
  apply shortest_search_rounds.
Qed.

Lemma shortest_decimal_lower (v c : Z) :
  0 <= c <= 2 ^ 53 -> c <= v -> c <= shortest_decimal v.
Proof.
  intros Hc Hv. destruct (Z_le_gt_dec v (2 ^ 53)) as [Hs|Hb].
  - now rewrite shortest_decimal_small.
  - destruct (shortest_decimal_rounds v) as [->|E]; [assumption|].
    destruct (Z_lt_dec (shortest_decimal v) c) as [Hlt|]; [exfalso | lia].
    destruct (Z_le_gt_dec (shortest_decimal v) (- 2 ^ 53)) as [Hn|Hp].
    + pose proof (round64_upper (shortest_decimal v) (- 2 ^ 53)
                    ltac:(lia) Hn). lia.
    + rewrite round64_small in E by lia. lia.
Qed.

Lemma shortest_decimal_ltb (v c : Z) :
  0 <= c <= 2 ^ 53 -> (shortest_decimal v <? c) = (v <? c).
Proof.
  intros Hc. destruct (Z.ltb_spec v c) as [Hlt|Hge].
  - rewrite shortest_decimal_small by lia. now apply Z.ltb_lt.
  - apply Z.ltb_ge. now apply shortest_decimal_lower.
Qed.

(** Number::toString of the model against values JavaScript prints, also
    where the printed digits are not those of the integer. *)
Example shortest_decimal_examples :
  shortest_decimal 9007199254740992 = 9007199254740992
  /\ shortest_decimal 18014398509420496 = 18014398509420496
  /\ shortest_decimal 18014398509481992 = 18014398509481990
  /\ shortest_decimal 69120000000000000 = 69120000000000000
  /\ shortest_decimal 1152921504606846976 = 1152921504606847000
  /\ shortest_decimal 18446744073709551616 = 18446744073709552000.
Proof. vm_compute. repeat split. Qed.

(** *** Quotients *)

Lemma quot_exponent_le (a b E : Z) :
  0 < a -> 0 < b -> 0 <= E -> a < b * 2 ^ (E + 1) -> quot_exponent a b <= E.
Proof.
  intros Ha Hb HE Hlt. unfold quot_exponent.
  destruct (Z.leb_spec b a).
  - assert (0 < a / b) by (apply Z.div_str_pos; lia).
    assert (a / b < 2 ^ (E + 1)) by (apply Z.div_lt_upper_bound; lia).
    assert (Z.log2 (a / b) < E + 1) by (apply Z.log2_lt_pow2; lia). lia.
  - pose proof (Z.log2_up_nonneg ((b + a - 1) / a)). lia.
Qed.

Lemma quot_exponent_spec (a b : Z) :
  0 < b <= a ->
  0 <= quot_exponent a b /\ b * 2 ^ quot_exponent a b <= a.
Proof.
  intros [Hb Hba]. unfold quot_exponent.
  destruct (Z.leb_spec b a); [|lia].
  assert (Hq : 0 < a / b) by (apply Z.div_str_pos; lia).
  pose proof (Z.log2_spec (a / b) Hq) as [Hlo _].
  pose proof (Z.log2_nonneg (a / b)).
  split; [assumption|].
  pose proof (Z.mul_div_le a b Hb). nia.
Qed.

Lemma Zpos_to_pos_pow2 (s : Z) : 0 <= s -> Z.pos (Z.to_pos (2 ^ s)) = 2 ^ s.
Proof. intros H. apply Z2Pos.id. apply Z.pow_pos_nonneg; lia. Qed.

Lemma fdiv_0 (k : Z) : fdiv 0 k = 0.
Proof. reflexivity. Qed.

Lemma fdiv_exact (x k g E : Z) :
  0 <= x -> 0 < k -> 0 < g -> (g | x) -> (g | k) ->
  0 <= E <= 52 -> x < k * 2 ^ (E + 1) -> k < g * 2 ^ (53 - E) ->
  fdiv x k = x / k.
Proof.
  intros Hx Hk Hg Hgx Hgk HE Hlt Hkg.
  destruct (Z.eq_dec x 0) as [->|Hx0]; [now rewrite Z.div_0_l by lia|].
  unfold fdiv, fl_div.
  rewrite (Z.abs_eq x), (Z.abs_eq k), (Z.sgn_pos x), (Z.sgn_pos k) by lia.
  destruct (Z.eqb_spec x 0); [lia|].
  pose proof (quot_exponent_le x k E ltac:(lia) Hk ltac:(lia) Hlt) as He.
  set (sh := 52 - quot_exponent x k). assert (Hsh : 52 - E <= sh) by (unfold sh; lia).
  destruct (Z.leb_spec 0 sh); [|lia].
  unfold Qfloor. rewrite Zpos_to_pos_pow2 by lia. rewrite Z.mul_1_l.
  assert (HP : 2 ^ (52 - E) <= 2 ^ sh) by (apply Z.pow_le_mono_r; lia).
  assert (HP0 : 0 < 2 ^ sh) by (apply Z.pow_pos_nonneg; lia).
  apply (rne_div_scaled_floor x k (2 ^ sh) g); try assumption.
  replace (53 - E) with (1 + (52 - E)) in Hkg by lia.
  rewrite Z.pow_add_r in Hkg by lia. change (2 ^ 1) with 2 in Hkg. nia.
Qed.

Lemma fdiv_lower (x k c : Z) :
  0 < k -> 0 <= c <= 2 ^ 53 -> c * k <= x -> c <= fdiv x k.
Proof.
  intros Hk Hc Hx.
  destruct (Z.eq_dec x 0) as [->|Hx0]; [rewrite fdiv_0; nia|].
  assert (Hxp : 0 < x) by nia.
  unfold fdiv, fl_div.
  rewrite (Z.abs_eq x), (Z.abs_eq k), (Z.sgn_pos x), (Z.sgn_pos k) by lia.
  destruct (Z.eqb_spec x 0); [lia|]. rewrite !Z.mul_1_l.
  set (sh := 52 - quot_exponent x k).
  destruct (Z.leb_spec 0 sh) as [Hsh|Hsh].
  - unfold Qfloor. rewrite Zpos_to_pos_pow2 by lia.
    assert (HP0 : 0 < 2 ^ sh) by (apply Z.pow_pos_nonneg; lia).
    pose proof (rne_div_bounds (x * 2 ^ sh) k Hk) as [Hlo _].
    assert (c * 2 ^ sh <= x * 2 ^ sh / k) by (apply Z.div_le_lower_bound; nia).
    apply Z.div_le_lower_bound; lia.
  - rewrite Qfloor_Z.
    assert (Hkx : k <= x).
    { destruct (Z_le_gt_dec k x); [assumption|]. exfalso.
      unfold sh, quot_exponent in Hsh. destruct (Z.leb_spec k x); [lia|].
      pose proof (Z.log2_up_nonneg ((k + x - 1) / x)). lia. }
    destruct (quot_exponent_spec x k ltac:(lia)) as [He0 He].
    set (e := quot_exponent x k) in *.
    assert (Hs : - sh = e - 52) by (unfold sh; lia). rewrite Hs.
    assert (HP0 : 0 < 2 ^ (e - 52)) by (apply Z.pow_pos_nonneg; lia).
    assert (HP1 : 2 ^ 1 <= 2 ^ (e - 52)) by (apply Z.pow_le_mono_r; lia).
    pose proof (rne_div_bounds x (k * 2 ^ (e - 52)) ltac:(nia)) as [Hlo _].
    assert (2 ^ 52 <= x / (k * 2 ^ (e - 52))).
    { apply Z.div_le_lower_bound; [nia|].
      replace (k * 2 ^ (e - 52) * 2 ^ 52) with (k * 2 ^ e); [assumption|].
      rewrite <- Z.mul_assoc, <- Z.pow_add_r by lia. do 2 f_equal. lia. }
    change (2 ^ 53) with (2 ^ 52 * 2 ^ 1) in Hc. nia.
Qed.

Lemma fdiv_nonneg (x k : Z) : 0 <= x -> 0 < k -> 0 <= fdiv x k.
Proof. intros Hx Hk. apply fdiv_lower; [assumption | split; [lia | apply Z.pow_nonneg; lia] | lia]. Qed.

Lemma fdiv_nonpos (x k : Z) : x <= 0 -> 0 < k -> fdiv x k <= 0.
Proof.
  intros Hx Hk.
  destruct (Z.eq_dec x 0) as [->|Hx0]; [rewrite fdiv_0; lia|].
  unfold fdiv, fl_div.
  rewrite (Z.abs_neq x), (Z.abs_eq k), (Z.sgn_neg x), (Z.sgn_pos k) by lia.
  destruct (Z.eqb_spec (- x) 0); [lia|].
  set (sh := 52 - quot_exponent (- x) k).
  destruct (Z.leb_spec 0 sh) as [Hsh|Hsh].
  - unfold Qfloor. rewrite Zpos_to_pos_pow2 by lia.
    assert (HP0 : 0 < 2 ^ sh) by (apply Z.pow_pos_nonneg; lia).
    pose proof (rne_div_nonneg (- x * 2 ^ sh) k ltac:(nia) Hk).
    apply Z.div_le_upper_bound; [lia|]. nia.
  - rewrite Qfloor_Z.
    assert (HP0 : 0 < 2 ^ (- sh)) by (apply Z.pow_pos_nonneg; lia).
    pose proof (rne_div_nonneg (- x) (k * 2 ^ (- sh)) ltac:(lia) ltac:(nia)). nia.
Qed.

(** The integer layer against the primitive binary64 operations, on values
    around the places where they round. *)
Example round64_agrees_with_binary64 :
  forallb (fun x => Qeq_bool (inject_Z (round64 x)) (float_value (float_of_Z x))
                    && Qeq_bool (inject_Z (round64 (- x)))
                         (float_value (float_of_Z (- x))))
    [0; 1; 9007199254740991; 9007199254740992; 9007199254740993;
     9007199254740994; 9007199254740995; 17279999999999999; 17280000000000000;
     18014398509420497; 18014398509481983; 18014398509481985;
     18014398509481986; 36028797018963966; 36028797018963970;
     1152921504606846975]%list = true.
Proof. vm_compute. reflexivity. Qed.

Example fl_div_agrees_with_binary64 :
  forallb (fun p => Qeq_bool (fl_div (fst p) (snd p))
                      (float_value (float_of_Z (fst p) / float_of_Z (snd p))))
    [(1, 3); (59999, 60000); (35999999, 3600000); (3599999, 3600000);
     (9007199254740991, 3600000); (9007199254740992, 1000);
     (17280000000000000, 3600000); (17279999999999998, 3600000);
     (15461882265599998, 3600000); (18014398509420496, 1000);
     (9007199254710497, 1000); (4503599627370497, 60000);
     (-7200000, 3600000); (-1, 3600000); (600000, 60000); (599999, 60000);
     (1152921504606846976, 3); (1152921504606846976, 1000)]%list = true.
Proof. vm_compute. reflexivity. Qed.

End Rounding.

(** ** The number layer on integers *)

Section NumberFacts.

Lemma Math_floor_div (a b : Z) :
  b <> 0 -> Math_floor (Int a / Int b)%js = Int (fdiv a b).
Proof.
  intros Hb. unfold div. destruct (Z.eqb_spec b 0); [contradiction | reflexivity].
Qed.

Lemma ltb_Int (a b : Z) : (Int a <? Int b)%js = (a <? b).
Proof.
  unfold ltb, inj, Qcompare, inject_Z, Z.ltb. simpl. now rewrite !Z.mul_1_r.
Qed.

Lemma gtb_Int (a b : Z) : (Int a >? Int b)%js = (b <? a).
Proof. unfold gtb. apply ltb_Int. Qed.

(** A quotient is below an integer exactly when its floor is. *)
Lemma ltb_div (a b c : Z) :
  b <> 0 -> (Int a / Int b <? Int c)%js = (fdiv a b <? c).
Proof.
  intros Hb. unfold div. destruct (Z.eqb_spec b 0); [contradiction|].
  unfold ltb, inj, fdiv. set (q := fl_div a b).
  pose proof (Qfloor_le q) as Hlo. pose proof (Qlt_floor q) as Hhi.
  destruct (Z.ltb_spec (Qfloor q) c) as [Hc|Hc].
  - assert (Hq : (q < inject_Z c)%Q).
    { eapply Qlt_le_trans; [exact Hhi|]. rewrite <- Zle_Qle. lia. }
    assert (E : (q ?= inject_Z c)%Q = Lt) by (apply Qlt_alt; exact Hq).
    now rewrite E.
  - assert (Hq : (inject_Z c <= q)%Q).
    { eapply Qle_trans; [|exact Hlo]. now rewrite <- Zle_Qle. }
    assert (E : (q ?= inject_Z c)%Q <> Lt) by (apply Qge_alt; exact Hq).
    destruct (q ?= inject_Z c)%Q; congruence.
Qed.

Lemma truthy_floor_of_bool (b : bool) : truthy (Math_floor (of_bool b)) = b.
Proof. now destruct b. Qed.

Lemma rem_neq_0 (y k : Z) :
  k <> 0 -> (JS.rem (Int y) (Int k) != Int 0)%js = negb (Z.rem y k =? 0).
Proof.
  intros Hk. unfold rem. destruct (Z.eqb_spec k 0); [contradiction | reflexivity].
Qed.

End NumberFacts.

(** ** Strings of digits *)

Section Digits.

Lemma append_nil_r (a : string) : a ++ "" = a.
Proof. induction a as [|x a IH]; simpl; [reflexivity | now rewrite IH]. Qed.

Lemma append_assoc (a b c : string) : (a ++ b) ++ c = a ++ (b ++ c).
Proof. induction a as [|x a IH]; simpl; [reflexivity | now rewrite IH]. Qed.

Lemma length_append (a b : string) :
  String.length (a ++ b) = (String.length a + String.length b)%nat.
Proof. induction a as [|c a IH]; simpl; [reflexivity | now rewrite IH]. Qed.

Lemma digits_small (n : Z) :
  n < 10 -> digits n = String (digit_char n) EmptyString.
Proof.
  intros H. rewrite digits_equation_1.
  destruct (Z_lt_dec n 10); [reflexivity | lia].
Qed.

Lemma digits_big (n : Z) :
  10 <= n -> digits n = digits (n / 10) ++ String (digit_char (n mod 10)) EmptyString.
Proof.
  intros H. rewrite digits_equation_1 at 1.
  destruct (Z_lt_dec n 10); [lia | reflexivity].
Qed.

Lemma length_digits_1 (n : Z) : n < 10 -> String.length (digits n) = 1%nat.
Proof. intros H. now rewrite digits_small. Qed.

Lemma length_digits_2 (n : Z) : 10 <= n < 100 -> String.length (digits n) = 2%nat.
Proof.
  intros H.
  assert (n / 10 < 10) by (apply Z.div_lt_upper_bound; lia).
  rewrite digits_big, length_append, length_digits_1 by lia. reflexivity.
Qed.

Lemma length_digits_3 (n : Z) : 100 <= n < 1000 -> String.length (digits n) = 3%nat.
Proof.
  intros H.
  assert (10 <= n / 10 < 100)
    by (split; [apply Z.div_le_lower_bound | apply Z.div_lt_upper_bound]; lia).
  rewrite digits_big, length_append, length_digits_2 by lia. reflexivity.
Qed.

(** From 10 on a number takes at least two digits: hours of 100 and more are
    printed in full. *)
Lemma length_digits_ge_2 (n : Z) : 10 <= n -> (2 <= String.length (digits n))%nat.
Proof.
  intros H. rewrite digits_big, length_append by lia. simpl.
  assert (1 <= String.length (digits (n / 10)))%nat; [|lia].
  destruct (Z_lt_dec (n / 10) 10).
  - rewrite length_digits_1; lia.
  - rewrite digits_big, length_append by lia. simpl. lia.
Qed.

Lemma NumberToString_nonneg (z : Z) :
  0 <= z -> NumberToString (Int z) = digits (shortest_decimal z).
Proof.
  intros H. unfold NumberToString. destruct (Z.ltb_spec z 0); [lia | reflexivity].
Qed.

Lemma padStart_2 (n : Z) :
  0 <= n ->
  padStart 2 (digits n) = if n <? 10 then "0" ++ digits n else digits n.
Proof.
  intros H. unfold padStart. destruct (Z.ltb_spec n 10) as [Hlt|Hge].
  - now rewrite length_digits_1.
  - pose proof (length_digits_ge_2 n Hge).
    replace (2 - String.length (digits n))%nat with 0%nat by lia. reflexivity.
Qed.

Lemma padStart_3 (n : Z) :
  0 <= n < 1000 ->
  padStart 3 (digits n) =
  if n <? 10 then "00" ++ digits n
  else if n <? 100 then "0" ++ digits n else digits n.
Proof.
  intros H. unfold padStart.
  destruct (Z.ltb_spec n 10); [now rewrite length_digits_1|].
  destruct (Z.ltb_spec n 100); [now rewrite length_digits_2 by lia|].
  now rewrite length_digits_3 by lia.
Qed.

Lemma digit_char_spec (d : Z) :
  0 <= d < 10 -> is_digit (digit_char d) = true /\ digit_value (digit_char d) = d.
Proof.
  intros H.
  assert (E : d = 0 \/ d = 1 \/ d = 2 \/ d = 3 \/ d = 4 \/ d = 5 \/ d = 6
              \/ d = 7 \/ d = 8 \/ d = 9) by lia.
  repeat (destruct E as [->|E]; [split; reflexivity|]).
  subst d. split; reflexivity.
Qed.

Lemma all_digits_app (a b : string) :
  all_digits (a ++ b) = all_digits a && all_digits b.
Proof.
  induction a as [|c a IH]; simpl; [reflexivity|].
  now rewrite IH, andb_assoc.
Qed.

Lemma value_from_app (a b : string) (acc : Z) :
  value_from (a ++ b) acc = value_from b (value_from a acc).
Proof.
  revert acc. induction a as [|c a IH]; intros acc; simpl; [reflexivity | apply IH].
Qed.

(** [digits] prints digits only, and reading them back gives the number. *)
Lemma digits_spec (n : Z) :
  0 <= n -> all_digits (digits n) = true /\ value_from (digits n) 0 = n.
Proof.
  intros Hn. revert Hn.
  induction n as [n IH] using (well_founded_induction (Z.lt_wf 0)).
  intros Hn. destruct (Z_lt_dec n 10) as [Hlt|Hge].
  - rewrite digits_small by assumption. simpl.
    destruct (digit_char_spec n) as [-> ->]; [lia|]. split; [reflexivity | lia].
  - rewrite digits_big by lia.
    assert (Hq : 0 <= n / 10 < n) by (split; [apply Z.div_pos | apply Z.div_lt]; lia).
    destruct (IH (n / 10)) as [Hall Hval]; [lia..|].
    destruct (digit_char_spec (n mod 10)) as [Hd Hv];
      [apply Z.mod_pos_bound; lia|].
    rewrite all_digits_app, value_from_app, Hall, Hval.
    cbn [all_digits value_from andb]. rewrite Hd, Hv. split; [reflexivity|].
    pose proof (Z.div_mod n 10). lia.
Qed.

Lemma zeros_spec (k : nat) (s : string) :
  all_digits (zeros k ++ s) = all_digits s
  /\ value_from (zeros k ++ s) 0 = value_from s 0
  /\ String.length (zeros k ++ s) = (k + String.length s)%nat.
Proof.
  induction k as [|k (IH1 & IH2 & IH3)]; [repeat split|].
  cbn [zeros append all_digits value_from String.length].
  change (10 * 0 + digit_value "0") with 0.
  change (is_digit "0") with true.
  rewrite IH1, IH2, IH3. repeat split.
Qed.

Lemma padStart_spec (w : nat) (n : Z) :
  0 <= n ->
  all_digits (padStart w (digits n)) = true
  /\ value_from (padStart w (digits n)) 0 = n
  /\ (w <= String.length (padStart w (digits n)))%nat.
Proof.
  intros Hn. unfold padStart.
  destruct (zeros_spec (w - String.length (digits n)) (digits n)) as (-> & -> & ->).
  destruct (digits_spec n Hn) as [-> ->]. repeat split; lia.
Qed.

Lemma length_padStart_2 (n : Z) :
  0 <= n < 100 -> String.length (padStart 2 (digits n)) = 2%nat.
Proof.
  intros H. unfold padStart.
  destruct (zeros_spec (2 - String.length (digits n)) (digits n)) as (_ & _ & ->).
  destruct (Z_lt_dec n 10);
    [rewrite length_digits_1 | rewrite length_digits_2]; lia.
Qed.

Lemma length_padStart_3 (n : Z) :
  0 <= n < 1000 -> String.length (padStart 3 (digits n)) = 3%nat.
Proof.
  intros H. unfold padStart.
  destruct (zeros_spec (3 - String.length (digits n)) (digits n)) as (_ & _ & ->).
  destruct (Z_lt_dec n 10); [rewrite length_digits_1; lia|].
  destruct (Z_lt_dec n 100);
    [rewrite length_digits_2 | rewrite length_digits_3]; lia.
Qed.

Lemma span_digits_app (a r : string) (c : ascii) (acc : Z) (k : nat) :
  all_digits a = true -> is_digit c = false ->
  span_digits (a ++ String c r) acc k
  = (value_from a acc, (k + String.length a)%nat, String c r).
Proof.
  intros Ha Hc. revert acc k Ha.
  induction a as [|x a IH]; intros acc k Ha; simpl in *.
  - rewrite Hc. now rewrite Nat.add_0_r.
  - apply andb_prop in Ha. destruct Ha as [-> Ha].
    rewrite IH by assumption. now rewrite Nat.add_succ_r.
Qed.

Lemma span_digits_count (s : string) (acc : Z) (k : nat) :
  (k <= snd (fst (span_digits s acc k)))%nat.
Proof.
  revert acc k. induction s as [|c s IH]; intros acc k; cbn [span_digits].
  - cbn [fst snd]. lia.
  - destruct (is_digit c); cbn [fst snd]; [|lia].
    specialize (IH (10 * acc + digit_value c) (S k)). lia.
Qed.

Lemma read_digits_app (a r : string) (acc : Z) (k : nat) :
  all_digits a = true -> String.length a = k ->
  read_digits k acc (a ++ r) = Some (value_from a acc, r).
Proof.
  intros Ha Hk. revert acc k Ha Hk.
  induction a as [|x a IH]; intros acc k Ha Hk; simpl in *; subst k.
  - reflexivity.
  - apply andb_prop in Ha. destruct Ha as [Hx Ha]. simpl. rewrite Hx.
    now apply IH.
Qed.

Lemma length_digits_ge_3 (n : Z) : 100 <= n -> (3 <= String.length (digits n))%nat.
Proof.
  intros H. rewrite digits_big, length_append by lia. simpl.
  assert (10 <= n / 10) by (apply Z.div_le_lower_bound; lia).
  pose proof (length_digits_ge_2 (n / 10) ltac:(assumption)). lia.
Qed.


Lemma padStart_3_any (n : Z) :
  0 <= n ->
  padStart 3 (digits n) =
  if n <? 10 then "00" ++ digits n
  else if n <? 100 then "0" ++ digits n else digits n.
Proof.
  intros H. unfold padStart.
  destruct (Z.ltb_spec n 10); [now rewrite length_digits_1|].
  destruct (Z.ltb_spec n 100) as [|Hge]; [now rewrite length_digits_2 by lia|].
  pose proof (length_digits_ge_3 n Hge).
  replace (3 - String.length (digits n))%nat with 0%nat by lia. reflexivity.
Qed.

(** The same for a number as it is printed. *)
Lemma padStart_2_printed (n : Z) :
  0 <= n ->
  padStart 2 (digits (shortest_decimal n))
  = if n <? 10 then "0" ++ digits (shortest_decimal n)
    else digits (shortest_decimal n).
Proof.
  intros H.
  assert (H53 : 100 <= 2 ^ 53) by (change (2 ^ 53) with 9007199254740992; lia).
  rewrite padStart_2 by (apply shortest_decimal_lower; lia).
  now rewrite shortest_decimal_ltb by lia.
Qed.

Lemma padStart_3_printed (n : Z) :
  0 <= n ->
  padStart 3 (digits (shortest_decimal n))
  = if n <? 10 then "00" ++ digits (shortest_decimal n)
    else if n <? 100 then "0" ++ digits (shortest_decimal n)
    else digits (shortest_decimal n).
Proof.
  intros H.
  assert (H53 : 100 <= 2 ^ 53) by (change (2 ^ 53) with 9007199254740992; lia).
  rewrite padStart_3_any by (apply shortest_decimal_lower; lia).
  now rewrite !shortest_decimal_ltb by lia.
Qed.




End Digits.

(** ** timeSpanToString *)

Section TimeSpan.

Ltac solve_field :=
  cbn [ToString]; unfold str_add_num;
  rewrite ?NumberToString_nonneg by lia; reflexivity.

(** *** The three stages on any span *)

Lemma stage_field_nonneg (t d k : Z) : 0 < k -> 0 <= stage_field t d k.
Proof. intros Hk. apply fdiv_nonneg; [apply Z.abs_nonneg | assumption]. Qed.

(** The hours: the field is written when [Math.floor(time / 3600000)] is
    positive, and stays ["00"] otherwise. *)
Lemma hours_stage (d : Z) :
  exists v,
    (if (Math_floor (Int d / 3600000) >? 0)%js then
       (if (Math_floor (Int d / 3600000) <? 10)%js
        then Str (str_add_num "0" (Math_floor (Int d / 3600000)))
        else Num (Math_floor (Int d / 3600000)),
        (Int 0 + Math_floor (Int d / 3600000) * 3600000)%js)
     else (Str "00", Int 0))
    = (v, Int (hours_temp d))
    /\ ToString v
       = padStart 2 (digits (shortest_decimal (Z.max 0 (fdiv d 3600000)))).
Proof.
  rewrite Math_floor_div, gtb_Int, ltb_Int by discriminate.
  cbn [add mul]. unfold hours_temp.
  destruct (Z.ltb_spec 0 (fdiv d 3600000)) as [Hpos|Hneg].
  - rewrite Z.max_r by lia. rewrite padStart_2_printed by lia.
    eexists. split; [reflexivity|].
    destruct (fdiv d 3600000 <? 10); solve_field.
  - rewrite Z.max_l by lia. eexists. split; reflexivity.
Qed.

(** The minutes and the seconds. *)
Lemma field_stage (t d k : Z) :
  0 < k ->
  exists v,
    (if (Math_floor (Math_abs (Int t - Int d) / Int k) >? 0)%js then
       (if truthy (Math_floor (of_bool (Math_abs (Int t - Int d) / Int k <? 10)%js))
        then Str (str_add_num "0" (Math_floor (Math_abs (Int t - Int d) / Int k)))
        else Num (Math_floor (Math_abs (Int t - Int d) / Int k)),
        (Int t + Math_floor (Math_abs (Int t - Int d) / Int k) * Int k)%js)
     else (Str "00", Int t))
    = (v, Int (stage_temp t d k))
    /\ ToString v = padStart 2 (digits (shortest_decimal (stage_field t d k))).
Proof.
  intros Hk. cbn [sub Math_abs].
  rewrite Math_floor_div, gtb_Int, truthy_floor_of_bool, ltb_div by lia.
  cbn [add mul]. unfold stage_temp. fold (stage_field t d k).
  pose proof (stage_field_nonneg t d k Hk) as HF.
  rewrite padStart_2_printed by assumption.
  destruct (Z.ltb_spec 0 (stage_field t d k)) as [Hpos|Hzero].
  - eexists. split; [reflexivity|].
    destruct (stage_field t d k <? 10); solve_field.
  - replace (stage_field t d k) with 0 by lia.
    eexists. split; reflexivity.
Qed.

Lemma millis_stage (t d : Z) :
  ToString
    (if (Math_abs (Int t - Int d) >? 0)%js then
       if (Math_abs (Int t - Int d) <? 10)%js
       then Str (str_add_num "00" (Math_abs (Int t - Int d)))
       else if (Math_abs (Int t - Int d) <? 100)%js
       then Str (str_add_num "0" (Math_abs (Int t - Int d)))
       else Num (Math_abs (Int t - Int d))
     else Str "000")
  = padStart 3 (digits (shortest_decimal (Z.abs (round64 (t - d))))).
Proof.
  cbn [sub Math_abs].
  set (r := Z.abs (round64 (t - d))). assert (Hr0 : 0 <= r) by (unfold r; lia).
  rewrite gtb_Int, !ltb_Int, padStart_3_printed by lia.
  destruct (Z.ltb_spec 0 r) as [Hpos|Hzero].
  - destruct (r <? 10); [solve_field|].
    destruct (r <? 100); solve_field.
  - replace r with 0 by lia. reflexivity.
Qed.

(** The run of the function on any two dates: each field is a number as
    JavaScript prints it. *)
Lemma timeSpanToString_stages (ts te : Z) :
  let d := round64 (te - ts) in
  let t1 := hours_temp d in
  let t2 := stage_temp t1 d 60000 in
  let t3 := stage_temp t2 d 1000 in
  timeSpanToString (mkDate (Int ts)) (mkDate (Int te))
  = padStart 2 (digits (shortest_decimal (Z.max 0 (fdiv d 3600000)))) ++ ":"
    ++ padStart 2 (digits (shortest_decimal (stage_field t1 d 60000))) ++ ":"
    ++ padStart 2 (digits (shortest_decimal (stage_field t2 d 1000))) ++ "."
    ++ padStart 3 (digits (shortest_decimal (Z.abs (round64 (t3 - d))))).
Proof.
  intros d t1 t2 t3. unfold timeSpanToString, date_sub.
  cbn [DateValue sub]. fold d.
  destruct (hours_stage d) as (h & -> & Hh). fold t1.
  destruct (field_stage t1 d 60000) as (m & -> & Hm); [lia|]. fold t2.
  destruct (field_stage t2 d 1000) as (s & -> & Hs); [lia|]. fold t3.
  unfold str_add_val, val_add_str.
  rewrite millis_stage, Hh, Hm, Hs, !append_assoc. reflexivity.
Qed.

(** *** Spans that binary64 holds exactly enough

    Up to the longest span between two valid dates (17,280,000,000,000,000 ms,
    below 2^54) the span is an integer below 2^53 or an even one, the quotient
    by 3,600,000 has the exact floor, and every later value is exact. *)

Lemma span_facts (x : Z) :
  0 <= x <= 17280000000000000 ->
  0 <= round64 x < 2 ^ 54 /\ (round64 x < 2 ^ 53 \/ (2 | round64 x)).
Proof.
  intros Hx.
  pose proof (round64_lower x 0 ltac:(lia) ltac:(lia)).
  pose proof (round64_near x ltac:(lia)).
  destruct (round64_even x ltac:(lia)); split; try lia; auto.
Qed.

Lemma fdiv_hours (d : Z) :
  0 <= d < 2 ^ 54 -> d < 2 ^ 53 \/ (2 | d) -> fdiv d 3600000 = d / 3600000.
Proof.
  intros Hd [Hs|He].
  - apply (fdiv_exact d 3600000 1 31); try lia;
      try (apply Z.divide_1_l). 
  - apply (fdiv_exact d 3600000 2 32); try lia; try assumption.
    exists 1800000. reflexivity.
Qed.

(** One field when everything is exact: [r] is what is left of the span. *)
Lemma stage_exact (t d k r E : Z) :
  0 < k -> 0 <= t -> 0 <= d < 2 ^ 54 -> (2 | t) -> (2 | k) ->
  r = d - t -> 0 <= r < 2 ^ 53 ->
  0 <= E <= 52 -> r < k * 2 ^ (E + 1) -> k < 2 ^ (53 - E) ->
  stage_field t d k = r / k /\ stage_temp t d k = d - r mod k.
Proof.
  intros Hk Ht Hd Het Hek Hr Hr0 HE Hlt Hkg.
  assert (HF : stage_field t d k = r / k).
  { unfold stage_field. replace (t - d) with (- r) by lia.
    rewrite round64_small by lia. rewrite Z.abs_opp, Z.abs_eq by lia.
    apply (fdiv_exact r k 1 E); try lia; apply Z.divide_1_l. }
  split; [exact HF|].
  unfold stage_temp. rewrite HF.
  pose proof (Z.div_mod r k ltac:(lia)) as Hdm.
  pose proof (Z.mod_pos_bound r k Hk) as Hm.
  pose proof (Z.div_pos r k ltac:(lia) Hk) as Hq.
  assert (Hqk : r / k * k <= r) by lia.
  destruct (Z.ltb_spec 0 (r / k)) as [Hpos|Hzero].
  - rewrite (round64_small (r / k * k)) by lia.
    rewrite round64_exact_even; [lia | lia |].
    apply Z.divide_add_r; [assumption|]. now apply Z.divide_mul_r.
  - assert (r / k = 0) by lia. lia.
Qed.

Lemma pipeline_exact (d : Z) :
  0 <= d < 2 ^ 54 -> d < 2 ^ 53 \/ (2 | d) ->
  Z.max 0 (fdiv d 3600000) = d / 3600000
  /\ stage_field (hours_temp d) d 60000 = d mod 3600000 / 60000
  /\ stage_field (stage_temp (hours_temp d) d 60000) d 1000
     = (d mod 3600000) mod 60000 / 1000
  /\ Z.abs (round64 (stage_temp (stage_temp (hours_temp d) d 60000) d 1000 - d))
     = ((d mod 3600000) mod 60000) mod 1000.
Proof.
  intros Hd Hpar.
  pose proof (fdiv_hours d Hd Hpar) as EH.
  pose proof (Z.div_pos d 3600000 ltac:(lia) ltac:(lia)) as HH.
  pose proof (Z.div_mod d 3600000 ltac:(lia)) as E1.
  pose proof (Z.mod_pos_bound d 3600000 ltac:(lia)) as Hr1.
  pose proof (Z.mod_pos_bound (d mod 3600000) 60000 ltac:(lia)) as Hr2.
  pose proof (Z.mod_pos_bound ((d mod 3600000) mod 60000) 1000 ltac:(lia)) as Hr3.
  pose proof (Z.mod_le d 3600000 ltac:(lia) ltac:(lia)) as Hl1.
  pose proof (Z.mod_le (d mod 3600000) 60000 ltac:(lia) ltac:(lia)) as Hl2.
  assert (Ht1 : hours_temp d = d - d mod 3600000).
  { unfold hours_temp. rewrite EH.
    destruct (Z.ltb_spec 0 (d / 3600000)); [|lia].
    assert (Hev : (2 | d / 3600000 * 3600000)).
    { apply Z.divide_mul_r. exists 1800000. reflexivity. }
    rewrite (round64_exact_even (d / 3600000 * 3600000)) by (lia || assumption).
    rewrite round64_exact_even by (lia || assumption). lia. }
  rewrite Ht1, EH, Z.max_r by lia.
  split; [reflexivity|].
  assert (Hev1 : (2 | d - d mod 3600000)).
  { replace (d - d mod 3600000) with (d / 3600000 * 3600000) by lia.
    apply Z.divide_mul_r. exists 1800000. reflexivity. }
  destruct (stage_exact (d - d mod 3600000) d 60000 (d mod 3600000) 5)
    as [F2 T2]; try lia; try assumption; [exists 30000; reflexivity|].
  rewrite F2, T2. split; [reflexivity|].
  assert (Hev2 : (2 | d - (d mod 3600000) mod 60000)).
  { pose proof (Z.div_mod (d mod 3600000) 60000 ltac:(lia)).
    replace (d - (d mod 3600000) mod 60000)
      with (d / 3600000 * 3600000 + d mod 3600000 / 60000 * 60000) by lia.
    apply Z.divide_add_r; apply Z.divide_mul_r;
      [exists 1800000 | exists 30000]; reflexivity. }
  destruct (stage_exact (d - (d mod 3600000) mod 60000) d 1000
              ((d mod 3600000) mod 60000) 5)
    as [F3 T3]; try lia; try assumption; [exists 500; reflexivity|].
  rewrite F3, T3. split; [reflexivity|].
  replace (d - ((d mod 3600000) mod 60000) mod 1000 - d)
    with (- (((d mod 3600000) mod 60000) mod 1000)) by lia.
  rewrite round64_small by lia. lia.
Qed.

(** The four fields of a non-negative span between valid dates, as the
    function writes them: those of the span rounded to binary64. *)
Lemma timeSpanToString_fields (ts te : Z) :
  ts <= te -> te - ts <= 17280000000000000 ->
  timeSpanToString (mkDate (Int ts)) (mkDate (Int te))
  = padStart 2 (digits (round64 (te - ts) / 3600000)) ++ ":"
    ++ padStart 2 (digits (round64 (te - ts) mod 3600000 / 60000)) ++ ":"
    ++ padStart 2 (digits ((round64 (te - ts) mod 3600000) mod 60000 / 1000))
    ++ "."
    ++ padStart 3 (digits (((round64 (te - ts) mod 3600000) mod 60000) mod 1000)).
Proof.
  intros Hle Hmax. rewrite timeSpanToString_stages. cbv zeta.
  destruct (span_facts (te - ts) ltac:(lia)) as [Hd Hpar].
  destruct (pipeline_exact (round64 (te - ts)) Hd Hpar) as (-> & -> & -> & ->).
  set (d := round64 (te - ts)) in *.
  pose proof (Z.mod_pos_bound d 3600000 ltac:(lia)) as Hr1.
  pose proof (Z.mod_pos_bound (d mod 3600000) 60000 ltac:(lia)) as Hr2.
  pose proof (Z.mod_pos_bound ((d mod 3600000) mod 60000) 1000 ltac:(lia)) as Hr3.
  assert (H53 : 3600000 <= 2 ^ 53) by (change (2 ^ 53) with 9007199254740992; lia).
  assert (H0 : d / 3600000 < 2 ^ 53) by (apply Z.div_lt_upper_bound; lia).
  assert (H1 : d mod 3600000 / 60000 < 2 ^ 53) by (apply Z.div_lt_upper_bound; lia).
  assert (H2 : (d mod 3600000) mod 60000 / 1000 < 2 ^ 53)
    by (apply Z.div_lt_upper_bound; lia).
  rewrite !shortest_decimal_small by lia.
  reflexivity.
Qed.


(** The reference parser reads back what the format writes. *)
Lemma parseTimespan_ref_format (d : Z) :
  0 <= d -> parseTimespan_ref (formatTimespan_spec d) = Some d.
Proof.
  intros Hd. unfold formatTimespan_spec, parseTimespan_ref.
  rewrite Z.div_1_r.
  pose proof (Z.div_pos d 3600000 Hd ltac:(lia)) as Hh.
  pose proof (Z.mod_pos_bound d 3600000 ltac:(lia)) as Hr1.
  pose proof (Z.mod_pos_bound (d mod 3600000) 60000 ltac:(lia)) as Hr2.
  pose proof (Z.mod_pos_bound ((d mod 3600000) mod 60000) 1000 ltac:(lia)) as Hr3.
  pose proof (Z.div_mod d 3600000 ltac:(lia)) as E1.
  pose proof (Z.div_mod (d mod 3600000) 60000 ltac:(lia)) as E2.
  pose proof (Z.div_mod ((d mod 3600000) mod 60000) 1000 ltac:(lia)) as E3.
  set (r1 := d mod 3600000) in *. set (r2 := r1 mod 60000) in *.
  set (r3 := r2 mod 1000) in *.
  assert (Hm : 0 <= r1 / 60000 < 60)
    by (split; [apply Z.div_pos | apply Z.div_lt_upper_bound]; lia).
  assert (Hs : 0 <= r2 / 1000 < 60)
    by (split; [apply Z.div_pos | apply Z.div_lt_upper_bound]; lia).
  destruct (padStart_spec 2 (d / 3600000) Hh) as (Ha0 & Hv0 & Hl0).
  destruct (padStart_spec 2 (r1 / 60000)) as (Ha1 & Hv1 & _); [lia|].
  destruct (padStart_spec 2 (r2 / 1000)) as (Ha2 & Hv2 & _); [lia|].
  destruct (padStart_spec 3 r3) as (Ha3 & Hv3 & _); [lia|].
  cbn [append].
  rewrite span_digits_app by (assumption || reflexivity).
  rewrite Hv0. simpl Nat.add.
  destruct (Nat.ltb_spec (String.length (padStart 2 (digits (d / 3600000)))) 2);
    [lia|].
  cbn [expect Ascii.eqb Bool.eqb].
  rewrite read_digits_app by (assumption || (apply length_padStart_2; lia)).
  cbn [expect Ascii.eqb Bool.eqb].
  rewrite read_digits_app by (assumption || (apply length_padStart_2; lia)).
  cbn [expect Ascii.eqb Bool.eqb].
  rewrite <- (append_nil_r (padStart 3 (digits r3))) at 1.
  rewrite read_digits_app by (assumption || (apply length_padStart_3; lia)).
  rewrite Hv1, Hv2, Hv3.
  destruct (Z.ltb_spec (r1 / 60000) 60); [|lia].
  destruct (Z.ltb_spec (r2 / 1000) 60); [|lia].
  cbn [andb]. f_equal. lia.
Qed.

(** C3, as amended: for valid dates with [end >= start], [timeSpanToString]
    returns the span as JavaScript computes it, [end - start] rounded to
    binary64, decomposed by successive integer division by 3,600,000, 60,000,
    1,000 and 1 with cascading remainders, hours, minutes and seconds
    zero-padded to two digits (hours longer from 100 on), milliseconds to
    three, joined as [H:M:S.ms]; up to 2^53 ms the rounded span is
    [end - start] itself. *)
Theorem timeSpanToString_formats_duration (ts te : Z) :
  Z.abs ts <= 8640000000000000 -> Z.abs te <= 8640000000000000 -> ts <= te ->
  timeSpanToString (mkDate (Int ts)) (mkDate (Int te))
  = formatTimespan_spec (round64 (te - ts))
  /\ (te - ts <= 9007199254740992 -> round64 (te - ts) = te - ts).
Proof.
  intros Hs He Hle. split.
  - rewrite timeSpanToString_fields by lia.
    unfold formatTimespan_spec. cbv zeta.
    now rewrite Z.div_1_r.
  - intros Hb. apply round64_small.
    change (2 ^ 53) with 9007199254740992. lia.
Qed.

Lemma timeSpanToString_formats_duration_witness :
  timeSpanToString (mkDate (Int 949399200000)) (mkDate (Int 949418410453))
  = "05:20:10.453".
Proof.
  exact (proj1 (timeSpanToString_formats_duration 949399200000 949418410453
                  ltac:(lia) ltac:(lia) ltac:(lia))).
Defined.

(** C3 as stated fails: from the first valid date to one millisecond before
    the last, the span 17,279,999,999,999,999 is not a binary64 value;
    [end - start] is 17,280,000,000,000,000 and that is what is written. *)
Lemma timeSpanToString_rounds_the_span :
  new_Date_number (Int (-8640000000000000)) = mkDate (Int (-8640000000000000))
  /\ new_Date_number (Int 8639999999999999) = mkDate (Int 8639999999999999)
  /\ timeSpanToString (mkDate (Int (-8640000000000000)))
       (mkDate (Int 8639999999999999))
     = "4800000000:00:00.000"
  /\ formatTimespan_spec (8639999999999999 - -8640000000000000)
     = "4799999999:59:59.999".
Proof. repeat split; vm_compute; reflexivity. Qed.

(** The examples of the source, with 2000-02-01T10:00:00 as the start. *)
Example timeSpanToString_examples :
  let start := mkDate (Int 949399200000) in
  timeSpanToString start (mkDate (Int 949402800000)) = "01:00:00.000"
  /\ timeSpanToString start (mkDate (Int 949401000000)) = "00:30:00.000"
  /\ timeSpanToString start (mkDate (Int 949399220000)) = "00:00:20.000"
  /\ timeSpanToString start (mkDate (Int 949399200250)) = "00:00:00.250"
  /\ timeSpanToString start (mkDate (Int 949418410453)) = "05:20:10.453".
Proof. vm_compute. repeat split. Qed.

(** C5, as amended: for valid dates with [end >= start], the reference
    parser of the [HH:mm:ss.sss] format applied to [timeSpanToString start end]
    gives back the span as JavaScript computes it, [end - start] rounded to
    binary64: exactly [end - start] up to 2^53 ms. *)
Theorem timeSpanToString_roundtrip (ts te : Z) :
  Z.abs ts <= 8640000000000000 -> Z.abs te <= 8640000000000000 -> ts <= te ->
  parseTimespan_ref (timeSpanToString (mkDate (Int ts)) (mkDate (Int te)))
  = Some (round64 (te - ts))
  /\ (te - ts <= 9007199254740992 ->
      parseTimespan_ref (timeSpanToString (mkDate (Int ts)) (mkDate (Int te)))
      = Some (te - ts)).
Proof.
  intros Hs He Hle.
  assert (H : parseTimespan_ref
                (timeSpanToString (mkDate (Int ts)) (mkDate (Int te)))
              = Some (round64 (te - ts))).
  { rewrite timeSpanToString_fields by lia.
    destruct (span_facts (te - ts) ltac:(lia)) as [Hd _].
    rewrite <- (parseTimespan_ref_format (round64 (te - ts))) by lia.
    unfold formatTimespan_spec. cbv zeta.
    now rewrite Z.div_1_r. }
  split; [exact H|].
  intros Hb. rewrite H. f_equal. apply round64_small.
  change (2 ^ 53) with 9007199254740992. lia.
Qed.

Lemma timeSpanToString_roundtrip_witness :
  parseTimespan_ref
    (timeSpanToString (mkDate (Int 949399200000)) (mkDate (Int 949418410453)))
  = Some 19210453.
Proof.
  exact (proj2 (timeSpanToString_roundtrip 949399200000 949418410453
                  ltac:(lia) ltac:(lia) ltac:(lia)) ltac:(lia)).
Defined.

(** C5 as stated fails: a span of 2^53 + 1 ms between two valid dates is
    written, and read back, as 2^53. *)
Lemma timeSpanToString_roundtrip_loses_a_millisecond :
  new_Date_number (Int (-8640000000000000)) = mkDate (Int (-8640000000000000))
  /\ new_Date_number (Int 367199254740993) = mkDate (Int 367199254740993)
  /\ 367199254740993 - -8640000000000000 = 9007199254740993
  /\ timeSpanToString (mkDate (Int (-8640000000000000)))
       (mkDate (Int 367199254740993))
     = "2501999792:59:00.992"
  /\ parseTimespan_ref
       (timeSpanToString (mkDate (Int (-8640000000000000)))
          (mkDate (Int 367199254740993)))
     = Some 9007199254740992.
Proof. repeat split; vm_compute; reflexivity. Qed.

(** C9: [timeSpanToString d d] is ["00:00:00.000"] for every date [d], an
    Invalid Date included: every test fails and every field keeps its
    default. *)
Theorem timeSpanToString_same_date (d : Date) :
  timeSpanToString d d = "00:00:00.000".
Proof.
  destruct d as [[|t]]; [reflexivity|].
  unfold timeSpanToString, date_sub. cbn [DateValue sub].
  rewrite Z.sub_diag. reflexivity.
Qed.

(** X5: with an Invalid Date on either side the span is NaN, every test
    fails, and the result is ["00:00:00.000"], as for a span of zero. *)
Lemma timeSpanToString_invalid (d : Date) :
  timeSpanToString InvalidDate d = "00:00:00.000"
  /\ timeSpanToString d InvalidDate = "00:00:00.000".
Proof. destruct d as [[|t]]; split; reflexivity. Qed.

(** *** Spans of either sign *)

(** With [end] before [start] the hours test fails and [temp] stays 0. *)
Lemma hours_negative (d : Z) :
  d <= 0 -> Z.max 0 (fdiv d 3600000) = 0 /\ hours_temp d = 0.
Proof.
  intros Hd. pose proof (fdiv_nonpos d 3600000 Hd ltac:(lia)) as H.
  unfold hours_temp. destruct (Z.ltb_spec 0 (fdiv d 3600000)); lia.
Qed.

(** X1: with [end] before [start] by at most 2^51 ms the hours stay ["00"]
    and nothing is carried: for [a = start - end], the minutes field is all
    of [a] in minutes ([M]), [temp] then moves away from the negative span,
    the seconds field is [(a + 60000 M) / 1000] ([S]) and the last field is
    [a + 60000 M + 1000 S]; up to 2^51 no value passes 2^53 and every
    operation is exact. *)
Theorem timeSpanToString_negative_span (ts te : Z) :
  te < ts -> ts - te <= 2251799813685248 ->
  let a := ts - te in
  let M := a / 60000 in
  let S := (a + M * 60000) / 1000 in
  timeSpanToString (mkDate (Int ts)) (mkDate (Int te))
  = "00:" ++ padStart 2 (digits M) ++ ":" ++ padStart 2 (digits S) ++ "."
    ++ padStart 3 (digits (a + M * 60000 + S * 1000)).
Proof.
  intros Hlt Hmax a M S. rewrite timeSpanToString_stages. cbv zeta.
  assert (Ha : 0 < a <= 2 ^ 51) by (unfold a; change (2 ^ 51) with 2251799813685248; lia).
  replace (te - ts) with (- a) by (unfold a; lia).
  rewrite (round64_small (- a)) by lia.
  destruct (hours_negative (- a) ltac:(lia)) as [-> ->].
  assert (HM : 0 <= M) by (apply Z.div_pos; lia).
  assert (HMa : M * 60000 <= a) by (unfold M; pose proof (Z.mul_div_le a 60000); lia).
  assert (F2 : stage_field 0 (- a) 60000 = M).
  { unfold stage_field. replace (0 - - a) with a by lia.
    rewrite round64_small, Z.abs_eq by lia.
    apply (fdiv_exact a 60000 1 35); try lia; apply Z.divide_1_l. }
  assert (T2 : stage_temp 0 (- a) 60000 = M * 60000).
  { unfold stage_temp. rewrite F2.
    destruct (Z.ltb_spec 0 M); [|lia].
    rewrite (round64_small (M * 60000)) by lia. apply round64_small. lia. }
  rewrite F2, T2.
  assert (HS : 0 <= S) by (apply Z.div_pos; lia).
  assert (HSa : S * 1000 <= a + M * 60000)
    by (unfold S; pose proof (Z.mul_div_le (a + M * 60000) 1000); lia).
  assert (F3 : stage_field (M * 60000) (- a) 1000 = S).
  { unfold stage_field. replace (M * 60000 - - a) with (a + M * 60000) by lia.
    rewrite round64_small, Z.abs_eq by lia.
    apply (fdiv_exact (a + M * 60000) 1000 1 42); try lia; apply Z.divide_1_l. }
  assert (T3 : stage_temp (M * 60000) (- a) 1000 = M * 60000 + S * 1000).
  { unfold stage_temp. rewrite F3.
    destruct (Z.ltb_spec 0 S); [|lia].
    rewrite (round64_small (S * 1000)) by lia. apply round64_small. lia. }
  rewrite F3, T3.
  replace (M * 60000 + S * 1000 - - a) with (a + M * 60000 + S * 1000) by lia.
  rewrite round64_small, Z.abs_eq by lia.
  rewrite !shortest_decimal_small by lia.
  reflexivity.
Qed.

Lemma timeSpanToString_negative_span_witness :
  timeSpanToString (mkDate (Int 7200000)) (mkDate (Int 0))
  = "00:120:14400.28800000".
Proof.
  exact (timeSpanToString_negative_span 7200000 0 ltac:(lia) ltac:(lia)).
Defined.

(** Further back the sums round: with [end] 2^52 + 1 ms before [start] the
    last field is one less than the exact sum; between the last and the first
    valid date it is 69,120,000,000,000,000. *)
Example timeSpanToString_negative_span_rounded :
  timeSpanToString (mkDate (Int 4503599627370497)) (mkDate (Int 0))
  = "00:75059993789:9007199254710.18014398509420496"
  /\ 4503599627370497 + 75059993789 * 60000 + 9007199254710 * 1000
     = 18014398509420497
  /\ timeSpanToString (mkDate (Int 8640000000000000))
       (mkDate (Int (-8640000000000000)))
     = "00:288000000000:34560000000000.69120000000000000".
Proof. vm_compute. repeat split. Qed.

(** X2: a span shorter than a second, of either sign, is written as its
    magnitude: the sign is lost, and swapping the two dates changes nothing. *)
Theorem timeSpanToString_subsecond (ts te : Z) :
  Z.abs (te - ts) < 1000 ->
  timeSpanToString (mkDate (Int ts)) (mkDate (Int te))
  = "00:00:00." ++ padStart 3 (digits (Z.abs (te - ts)))
  /\ timeSpanToString (mkDate (Int ts)) (mkDate (Int te))
     = timeSpanToString (mkDate (Int te)) (mkDate (Int ts)).
Proof.
  assert (H : forall a b, Z.abs (b - a) < 1000 ->
              timeSpanToString (mkDate (Int a)) (mkDate (Int b))
              = "00:00:00." ++ padStart 3 (digits (Z.abs (b - a)))).
  { intros a b Hab. rewrite timeSpanToString_stages. cbv zeta.
    rewrite (round64_small (b - a)) by lia.
    set (d := b - a) in *.
    assert (Hh : Z.max 0 (fdiv d 3600000) = 0 /\ hours_temp d = 0).
    { destruct (Z_le_gt_dec d 0); [now apply hours_negative|].
      assert (E : fdiv d 3600000 = 0).
      { rewrite (fdiv_exact d 3600000 1 0); try lia; try apply Z.divide_1_l.
        apply Z.div_small. lia. }
      unfold hours_temp. rewrite E. split; reflexivity. }
    destruct Hh as [-> ->].
    assert (F : forall k, 1000 <= k < 2 ^ 53 -> stage_field 0 d k = 0).
    { intros k Hk. unfold stage_field.
      rewrite round64_small by lia.
      rewrite (fdiv_exact (Z.abs (0 - d)) k 1 0); try lia; try apply Z.divide_1_l.
      apply Z.div_small. lia. }
    assert (T : forall k, 1000 <= k < 2 ^ 53 -> stage_temp 0 d k = 0)
      by (intros k Hk; unfold stage_temp; now rewrite F).
    rewrite (F 60000), (T 60000), (F 1000), (T 1000) by lia.
    rewrite round64_small by lia.
    rewrite !shortest_decimal_small by lia.
    replace (Z.abs (0 - d)) with (Z.abs d) by lia. reflexivity. }
  intros Hd. split; [now apply H|].
  rewrite !H by lia. do 3 f_equal. lia.
Qed.

Lemma timeSpanToString_subsecond_witness :
  timeSpanToString (mkDate (Int 250)) (mkDate (Int 0)) = "00:00:00.250"
  /\ timeSpanToString (mkDate (Int 250)) (mkDate (Int 0))
     = timeSpanToString (mkDate (Int 0)) (mkDate (Int 250)).
Proof.
  exact (timeSpanToString_subsecond 250 0 eq_refl).
Defined.



(** X4: for [end >= start] the result has exactly 12 characters when the
    span is under 100 hours, and more from 100 hours on: the hours are never
    reduced to days. *)
Theorem timeSpanToString_width (ts te : Z) :
  ts <= te ->
  (String.length (timeSpanToString (mkDate (Int ts)) (mkDate (Int te))) = 12%nat
   <-> te - ts < 360000000).
Proof.
  intros Hle. set (x := te - ts). assert (Hx : 0 <= x) by (unfold x; lia).
  destruct (Z_lt_dec x 360000000) as [Hs|Hb].
  - split; [intros _; assumption | intros _].
    rewrite timeSpanToString_fields by (fold x; lia). fold x.
    rewrite (round64_small x) by lia.
    pose proof (Z.mod_pos_bound x 3600000 ltac:(lia)) as Hr1.
    pose proof (Z.mod_pos_bound (x mod 3600000) 60000 ltac:(lia)) as Hr2.
    pose proof (Z.mod_pos_bound ((x mod 3600000) mod 60000) 1000 ltac:(lia)) as Hr3.
    rewrite !length_append. cbn [String.length].
    rewrite (length_padStart_2 (x mod 3600000 / 60000))
      by (split; [apply Z.div_pos | apply Z.div_lt_upper_bound]; lia).
    rewrite (length_padStart_2 ((x mod 3600000) mod 60000 / 1000))
      by (split; [apply Z.div_pos | apply Z.div_lt_upper_bound]; lia).
    rewrite length_padStart_3 by lia.
    rewrite length_padStart_2; [reflexivity|].
    split; [apply Z.div_pos | apply Z.div_lt_upper_bound]; lia.
  - split; [|lia]. intros Hlen. exfalso.
    rewrite timeSpanToString_stages in Hlen. cbv zeta in Hlen. fold x in Hlen.
    set (d := round64 x) in *.
    assert (H53 : 360000000 <= 2 ^ 53) by (change (2 ^ 53) with 9007199254740992; lia).
    assert (Hd : 360000000 <= d) by (apply round64_lower; lia).
    assert (HH : 100 <= fdiv d 3600000) by (apply fdiv_lower; lia).
    rewrite Z.max_r in Hlen by lia.
    rewrite !length_append in Hlen. cbn [String.length] in Hlen.
    set (H := shortest_decimal (fdiv d 3600000)) in *.
    assert (HHp : 100 <= H) by (apply shortest_decimal_lower; lia).
    assert (L0 : (3 <= String.length (padStart 2 (digits H)))%nat).
    { unfold padStart.
      destruct (zeros_spec (2 - String.length (digits H)) (digits H))
        as (_ & _ & ->).
      pose proof (length_digits_ge_3 H HHp). lia. }
    destruct (padStart_spec 2
                (shortest_decimal (stage_field (hours_temp d) d 60000)))
      as (_ & _ & L1);
      [apply shortest_decimal_lower; [lia | apply stage_field_nonneg; lia]|].
    destruct (padStart_spec 2
                (shortest_decimal
                   (stage_field (stage_temp (hours_temp d) d 60000) d 1000)))
      as (_ & _ & L2);
      [apply shortest_decimal_lower; [lia | apply stage_field_nonneg; lia]|].
    destruct (padStart_spec 3
                (shortest_decimal
                   (Z.abs (round64 (stage_temp (stage_temp (hours_temp d) d 60000)
                                      d 1000 - d)))))
      as (_ & _ & L3); [apply shortest_decimal_lower; lia|].
    lia.
Qed.

Lemma timeSpanToString_width_witness :
  String.length
    (timeSpanToString (mkDate (Int 949399200000)) (mkDate (Int 949418410453)))
  = 12%nat.
Proof.
  exact (proj2 (timeSpanToString_width 949399200000 949418410453
                  (proj1 (Z.leb_le 949399200000 949418410453) eq_refl))
           eq_refl).
Defined.

End TimeSpan.

(** ** The year of a time value *)

Section Years.

Lemma DayFromYear_monotone (y y' : Z) :
  y <= y' -> DayFromYear y <= DayFromYear y'.
Proof. unfold DayFromYear. intros H. Z.to_euclidean_division_equations. lia. Qed.

(** [YearFromTime] is the year of the time value: its year starts at or
    before [t] and the next one after it. *)
Lemma YearFromTime_spec (t : Z) :
  TimeFromYear (YearFromTime t) <= t < TimeFromYear (YearFromTime t + 1).
Proof.
  unfold TimeFromYear, YearFromTime, Day, DayFromYear, msPerDay.
  set (y := 1970 + 400 * (t / 86400000) / 146097).
  destruct (Z.ltb_spec (t / 86400000)
              (365 * (y - 1970) + (y - 1969) / 4 - (y - 1901) / 100
               + (y - 1601) / 400)) as [Hlt|Hge].
  - subst y. Z.to_euclidean_division_equations. lia.
  - match goal with
    | |- context [if ?b then _ else _] => destruct b eqn:E
    end.
    + apply Z.leb_le in E. subst y. Z.to_euclidean_division_equations. lia.
    + apply Z.leb_gt in E. subst y. Z.to_euclidean_division_equations. lia.
Qed.

Lemma YearFromTime_largest (t y : Z) :
  TimeFromYear y <= t -> y <= YearFromTime t.
Proof.
  intros H. destruct (YearFromTime_spec t) as [_ Hlt].
  destruct (Z_le_gt_dec y (YearFromTime t)) as [Hle|Hgt]; [assumption|].
  pose proof (DayFromYear_monotone (YearFromTime t + 1) y ltac:(lia)).
  unfold TimeFromYear, msPerDay in *. lia.
Qed.

Lemma YearFromTime_unique (t y : Z) :
  TimeFromYear y <= t < TimeFromYear (y + 1) -> YearFromTime t = y.
Proof.
  intros [Hlo Hhi].
  pose proof (YearFromTime_largest t y Hlo) as Hle.
  destruct (YearFromTime_spec t) as [Hs _].
  destruct (Z_le_gt_dec (YearFromTime t) y) as [|Hgt]; [lia|].
  pose proof (DayFromYear_monotone (y + 1) (YearFromTime t) ltac:(lia)).
  unfold TimeFromYear, msPerDay in *. lia.
Qed.

Lemma DayFromYear_step (y : Z) : DayFromYear (y + 1) - DayFromYear y = DaysInYear y.
Proof.
  unfold DayFromYear, DaysInYear.
  destruct (Z.eqb_spec (y mod 4) 0), (Z.eqb_spec (y mod 100) 0),
    (Z.eqb_spec (y mod 400) 0); cbn [andb orb negb];
    Z.to_euclidean_division_equations; lia.
Qed.

Lemma DaysInYear_366 (y : Z) :
  DaysInYear y = 366 <-> ((4 | y) /\ ~ (100 | y)) \/ (400 | y).
Proof.
  unfold DaysInYear.
  rewrite <- !(Z.mod_divide y) by discriminate.
  assert (H400 : y mod 400 = 0 -> y mod 100 = 0 /\ y mod 4 = 0)
    by (intros H; split; Z.to_euclidean_division_equations; lia).
  destruct (Z.eqb_spec (y mod 4) 0), (Z.eqb_spec (y mod 100) 0),
    (Z.eqb_spec (y mod 400) 0); cbn [andb orb negb]; split; intros; try tauto;
    try discriminate; try lia.
Qed.

End Years.

(** ** isLeapYear *)

Section LeapYear.

Variable LocalTZA : Z -> Z.

(** C4: [isLeapYear] returns true exactly when the year of the date is
    divisible by 4 and not by 100, or divisible by 400; it returns false for
    1900, true for 2000, false for 2001, true for 2012 and false for 2015. *)
Theorem isLeapYear_gregorian (date : Date) (y : Z) :
  getFullYear LocalTZA date = Int y ->
  (isLeapYear LocalTZA date = true <-> ((4 | y) /\ ~ (100 | y)) \/ (400 | y))
  /\ (y = 1900 -> isLeapYear LocalTZA date = false)
  /\ (y = 2000 -> isLeapYear LocalTZA date = true)
  /\ (y = 2001 -> isLeapYear LocalTZA date = false)
  /\ (y = 2012 -> isLeapYear LocalTZA date = true)
  /\ (y = 2015 -> isLeapYear LocalTZA date = false).
Proof.
  intros Hy. unfold isLeapYear. rewrite Hy.
  split; [|repeat split; intros ->; reflexivity].
  rewrite !rem_neq_0 by discriminate.
  rewrite <- !(Z.rem_divide y) by discriminate.
  assert (H400 : Z.rem y 400 = 0 -> Z.rem y 100 = 0 /\ Z.rem y 4 = 0).
  { rewrite !Z.rem_divide by discriminate. intros H.
    split; (eapply Z.divide_trans; [|exact H]); [exists 4 | exists 100]; reflexivity. }
  assert (H100 : Z.rem y 100 = 0 -> Z.rem y 4 = 0).
  { rewrite !Z.rem_divide by discriminate. intros H.
    eapply Z.divide_trans; [|exact H]. exists 25. reflexivity. }
  destruct (Z.eqb_spec (Z.rem y 4) 0), (Z.eqb_spec (Z.rem y 100) 0),
    (Z.eqb_spec (Z.rem y 400) 0); cbn [negb]; split; intros; try tauto;
    try discriminate.
Qed.

(** An Invalid Date has no year: every test on NaN succeeds and the first
    one answers false. *)
Lemma isLeapYear_invalid : isLeapYear LocalTZA InvalidDate = false.
Proof. reflexivity. Qed.

(** The answer is the one [DaysInYear] gives. *)
Lemma isLeapYear_DaysInYear (date : Date) (y : Z) :
  getFullYear LocalTZA date = Int y ->
  isLeapYear LocalTZA date = (DaysInYear y =? 366).
Proof.
  intros Hy. unfold isLeapYear, DaysInYear. rewrite Hy.
  rewrite !rem_neq_0 by discriminate.
  assert (E : forall k, 0 < k -> (Z.rem y k =? 0) = (y mod k =? 0)).
  { intros k Hk.
    destruct (Z.eqb_spec (Z.rem y k) 0) as [H|H], (Z.eqb_spec (y mod k) 0) as [H'|H'];
      try reflexivity; exfalso.
    - apply Z.rem_divide in H; [|lia]. apply Z.mod_divide in H; [|lia]. contradiction.
    - apply Z.mod_divide in H'; [|lia]. apply Z.rem_divide in H'; [|lia]. contradiction. }
  rewrite !E by lia.
  destruct (y mod 4 =? 0), (y mod 100 =? 0), (y mod 400 =? 0); reflexivity.
Qed.

End LeapYear.

Lemma isLeapYear_gregorian_witness :
  getFullYear (fun _ => 0) (new_Date_number (Date_UTC 2012 1 1 0 0 0 0)) = Int 2012
  /\ isLeapYear (fun _ => 0) (new_Date_number (Date_UTC 2012 1 1 0 0 0 0)) = true.
Proof.
  assert (H : getFullYear (fun _ => 0) (new_Date_number (Date_UTC 2012 1 1 0 0 0 0))
              = Int 2012) by reflexivity.
  split; [exact H|].
  exact (proj1 (proj2 (proj2 (proj2 (proj2
           (isLeapYear_gregorian (fun _ => 0) _ 2012 H))))) eq_refl).
Defined.

(** The dates of the source's examples, read in a host on UTC. *)
Example isLeapYear_examples :
  map (fun y => isLeapYear (fun _ => 0) (new_Date_number (Date_UTC y 1 1 0 0 0 0)))
      [1900; 2000; 2001; 2012; 2015]
  = [false; true; false; true; false]%list.
Proof. reflexivity. Qed.

(** X6: [isLeapYear] is true exactly when the year of the date is 366 days
    long in the day count of [Date] itself, from which [getFullYear] takes
    the year. *)
Theorem isLeapYear_366_days (LocalTZA : Z -> Z) (date : Date) (y : Z) :
  getFullYear LocalTZA date = Int y ->
  (isLeapYear LocalTZA date = true
   <-> TimeFromYear (y + 1) - TimeFromYear y = 366 * msPerDay).
Proof.
  intros Hy. rewrite (isLeapYear_DaysInYear LocalTZA date y Hy).
  pose proof (DayFromYear_step y) as Hstep.
  unfold TimeFromYear, msPerDay.
  assert (Hd : DaysInYear y = 365 \/ DaysInYear y = 366)
    by (unfold DaysInYear; destruct (_ && _); auto).
  destruct (Z.eqb_spec (DaysInYear y) 366); split; intros; try lia; try discriminate;
    reflexivity.
Qed.

Lemma isLeapYear_366_days_witness :
  isLeapYear (fun _ => 0) (new_Date_number (Date_UTC 2012 1 1 0 0 0 0)) = true.
Proof.
  exact (proj2 (isLeapYear_366_days (fun _ => 0)
                  (new_Date_number (Date_UTC 2012 1 1 0 0 0 0)) 2012 eq_refl)
           eq_refl).
Defined.

(** X7: the year is the local one, so in the last hours before a leap year
    begins in UTC the answer depends on the host: false on a host on UTC, true
    on a host whose zone is far enough ahead to be in the new year. *)
Theorem isLeapYear_time_zone (LocalTZA : Z -> Z) (y t : Z) :
  ((4 | y) /\ ~ (100 | y)) \/ (400 | y) ->
  TimeFromYear y - LocalTZA t <= t < TimeFromYear y ->
  LocalTZA t <= msPerDay ->
  isLeapYear (fun _ => 0) (mkDate (Int t)) = false
  /\ isLeapYear LocalTZA (mkDate (Int t)) = true.
Proof.
  intros Hleap [Hlo Hhi] Hoff.
  apply DaysInYear_366 in Hleap.
  pose proof (DayFromYear_step y) as Hy.
  pose proof (DayFromYear_step (y - 1)) as Hp.
  replace (y - 1 + 1) with y in Hp by lia.
  assert (Hprev : DaysInYear (y - 1) = 365).
  { unfold DaysInYear in *.
    destruct (Z.eqb_spec (y mod 4) 0) as [H4|H4]; [|discriminate Hleap].
    destruct (Z.eqb_spec ((y - 1) mod 4) 0) as [H4'|]; [|reflexivity].
    exfalso. Z.to_euclidean_division_equations; lia. }
  split.
  - rewrite (isLeapYear_DaysInYear _ _ (y - 1)); [now rewrite Hprev|].
    unfold getFullYear, LocalTime. cbn [DateValue]. f_equal.
    apply YearFromTime_unique. replace (y - 1 + 1) with y by lia.
    unfold TimeFromYear, msPerDay in *. lia.
  - rewrite (isLeapYear_DaysInYear _ _ y); [now rewrite Hleap|].
    unfold getFullYear, LocalTime. cbn [DateValue]. f_equal.
    apply YearFromTime_unique.
    unfold TimeFromYear, msPerDay in *. lia.
Qed.

Lemma isLeapYear_time_zone_witness :
  isLeapYear (fun _ => 0) (mkDate (Int 1325375999999)) = false
  /\ isLeapYear (fun _ => 3600000) (mkDate (Int 1325375999999)) = true.
Proof.
  apply (isLeapYear_time_zone (fun _ => 3600000) 2012 1325375999999).
  - left. split; [exists 503; reflexivity|].
    intros [k Hk]. lia.
  - vm_compute. split; [discriminate | reflexivity].
  - vm_compute. discriminate.
Defined.

(** ** angleBetweenClockHands *)

Section ClockAngle.

(** The function reads the UTC hour and the UTC minute of its date and
    nothing else. *)
Lemma angle_reads_hour_and_minute (d1 d2 : Date) :
  getUTCHours d1 = getUTCHours d2 ->
  getUTCMinutes d1 = getUTCMinutes d2 ->
  angleBetweenClockHands d1 = angleBetweenClockHands d2.
Proof.
  intros Hh Hm. unfold angleBetweenClockHands, new_Date_copy.
  destruct d1 as [v1], d2 as [v2]. cbn [DateValue].
  now rewrite Hh, Hm.
Qed.

Lemma spec_reads_hour_and_minute (d1 d2 : Date) :
  getUTCHours d1 = getUTCHours d2 ->
  getUTCMinutes d1 = getUTCMinutes d2 ->
  angleBetweenHands_spec d1 = angleBetweenHands_spec d2.
Proof. intros Hh Hm. unfold angleBetweenHands_spec. now rewrite Hh, Hm. Qed.

Lemma fields_in_range (t : Z) :
  0 <= HourFromTime t < 24 /\ 0 <= MinFromTime t < 60.
Proof.
  unfold HourFromTime, MinFromTime; split; apply Z.mod_pos_bound; reflexivity.
Qed.

Lemma at_clock_fields (h m : Z) :
  0 <= h < 24 -> 0 <= m < 60 ->
  getUTCHours (at_clock h m) = Int h /\ getUTCMinutes (at_clock h m) = Int m.
Proof.
  intros Hh Hm. unfold getUTCHours, getUTCMinutes, at_clock. cbn [DateValue].
  unfold HourFromTime, MinFromTime, MakeTime, msPerHour, msPerMinute, msPerSecond,
    HoursPerDay, MinutesPerHour.
  split; f_equal; Z.to_euclidean_division_equations; lia.
Qed.

Lemma forallb_range (f : Z -> bool) (n : nat) :
  forallb (fun k => f (Z.of_nat k)) (seq 0 n) = true ->
  forall z, 0 <= z < Z.of_nat n -> f z = true.
Proof.
  intros H z Hz. rewrite forallb_forall in H.
  specialize (H (Z.to_nat z)). rewrite Z2Nat.id in H by lia.
  apply H, in_seq. lia.
Qed.

(** All 1440 clock faces, by evaluation. *)
Lemma angle_check_all (h m : Z) :
  0 <= h < 24 -> 0 <= m < 60 -> angle_check h m = true.
Proof.
  intros Hh Hm.
  apply (forallb_range (fun h => angle_check h m) 24); [|assumption].
  revert m Hm.
  assert (H : forallb
                (fun m => forallb (fun k => angle_check (Z.of_nat k) m) (seq 0 24))
                (map Z.of_nat (seq 0 60)) = true) by (vm_compute; reflexivity).
  intros m Hm. rewrite forallb_forall in H. apply H.
  apply in_map_iff. exists (Z.to_nat m). split; [lia | apply in_seq; lia].
Qed.

(** X8: what the function does on every valid date.  Unless the hour hand is
    more than 180 degrees behind the minute hand, the result is the one of the
    specification's algorithm and lies in [0, PI]; when it is (158 of the 1440
    times of a day), the test [angle > 180] sees a negative angle, nothing is
    folded, and the result exceeds PI. *)
Lemma angleBetweenClockHands_cases (t : Z) :
  let d := mkDate (Int t) in
  if far_behind (HourFromTime t) (MinFromTime t)
  then (Math_PI <? angleBetweenClockHands d)%float = true
  else angleBetweenClockHands d = angleBetweenHands_spec d
       /\ (0 <=? angleBetweenClockHands d)%float = true
       /\ (angleBetweenClockHands d <=? Math_PI)%float = true.
Proof.
  intros d.
  destruct (fields_in_range t) as [Hh Hm].
  destruct (at_clock_fields _ _ Hh Hm) as [Eh Em].
  assert (Ea : angleBetweenClockHands d
               = angleBetweenClockHands (at_clock (HourFromTime t) (MinFromTime t)))
    by (apply angle_reads_hour_and_minute; [now rewrite Eh | now rewrite Em]).
  assert (Es : angleBetweenHands_spec d
               = angleBetweenHands_spec (at_clock (HourFromTime t) (MinFromTime t)))
    by (apply spec_reads_hour_and_minute; [now rewrite Eh | now rewrite Em]).
  pose proof (angle_check_all _ _ Hh Hm) as H. unfold angle_check in H.
  rewrite Ea, Es.
  destruct (far_behind (HourFromTime t) (MinFromTime t)); [exact H|].
  apply andb_prop in H. destruct H as [H H3].
  apply andb_prop in H. destruct H as [H1 H2].
  apply FloatAxioms.Leibniz.eqb_spec in H1. auto.
Qed.

(** C1: the claim that the result lies in [0, PI] for every date fails at
    00:59 UTC (the date [Date.UTC(2016,2,5,0,59)]): there the signed angle is
    -324.5 degrees, and the function returns 324.5 degrees in radians, above
    PI. *)
Theorem angleBetweenClockHands_exceeds_PI :
  getUTCHours (new_Date_number (Date_UTC 2016 2 5 0 59 0 0)) = Int 0
  /\ getUTCMinutes (new_Date_number (Date_UTC 2016 2 5 0 59 0 0)) = Int 59
  /\ (Math_PI <? angleBetweenClockHands
                   (new_Date_number (Date_UTC 2016 2 5 0 59 0 0)))%float = true.
Proof. repeat split; vm_compute; reflexivity. Qed.

(** C2: the function is not the specification's algorithm: at 00:59 UTC the
    algorithm takes the absolute value first, folds 324.5 into 35.5 degrees
    and stays below PI, and the function does not. *)
Theorem angleBetweenClockHands_departs_from_spec :
  (angleBetweenHands_spec (new_Date_number (Date_UTC 2016 2 5 0 59 0 0))
   <? Math_PI)%float = true
  /\ (Math_PI <? angleBetweenClockHands
                   (new_Date_number (Date_UTC 2016 2 5 0 59 0 0)))%float = true
  /\ angleBetweenClockHands (new_Date_number (Date_UTC 2016 2 5 0 59 0 0))
     <> angleBetweenHands_spec (new_Date_number (Date_UTC 2016 2 5 0 59 0 0)).
Proof.
  split; [vm_compute; reflexivity|]. split; [vm_compute; reflexivity|].
  intros H.
  assert (E : (angleBetweenHands_spec (new_Date_number (Date_UTC 2016 2 5 0 59 0 0))
               <? Math_PI)%float = true) by (vm_compute; reflexivity).
  rewrite <- H in E. vm_compute in E. discriminate E.
Qed.

(** C8: the function returns 0 at 00:00 UTC, PI/2 at 03:00, PI at 18:00 and
    PI/2 at 21:00. *)
Theorem angleBetweenClockHands_on_the_hour (date : Date) :
  (getUTCHours date = Int 0 -> getUTCMinutes date = Int 0 ->
   angleBetweenClockHands date = 0%float)
  /\ (getUTCHours date = Int 3 -> getUTCMinutes date = Int 0 ->
      angleBetweenClockHands date = (Math_PI / 2)%float)
  /\ (getUTCHours date = Int 18 -> getUTCMinutes date = Int 0 ->
      angleBetweenClockHands date = Math_PI)
  /\ (getUTCHours date = Int 21 -> getUTCMinutes date = Int 0 ->
      angleBetweenClockHands date = (Math_PI / 2)%float).
Proof.
  unfold angleBetweenClockHands, new_Date_copy.
  destruct date as [v]. cbn [DateValue].
  repeat split; intros Hh Hm; rewrite Hh, Hm; vm_compute; reflexivity.
Qed.

Lemma angleBetweenClockHands_on_the_hour_witness :
  angleBetweenClockHands (new_Date_number (Date_UTC 2016 2 5 0 0 0 0)) = 0%float
  /\ angleBetweenClockHands (new_Date_number (Date_UTC 2016 3 5 3 0 0 0))
     = (Math_PI / 2)%float
  /\ angleBetweenClockHands (new_Date_number (Date_UTC 2016 3 5 18 0 0 0))
     = Math_PI
  /\ angleBetweenClockHands (new_Date_number (Date_UTC 2016 3 5 21 0 0 0))
     = (Math_PI / 2)%float.
Proof.
  split; [|split; [|split]].
  - exact (proj1 (angleBetweenClockHands_on_the_hour
                    (new_Date_number (Date_UTC 2016 2 5 0 0 0 0)))
             eq_refl eq_refl).
  - exact (proj1 (proj2 (angleBetweenClockHands_on_the_hour
                           (new_Date_number (Date_UTC 2016 3 5 3 0 0 0))))
             eq_refl eq_refl).
  - exact (proj1 (proj2 (proj2 (angleBetweenClockHands_on_the_hour
                                  (new_Date_number (Date_UTC 2016 3 5 18 0 0 0)))))
             eq_refl eq_refl).
  - exact (proj2 (proj2 (proj2 (angleBetweenClockHands_on_the_hour
                                  (new_Date_number (Date_UTC 2016 3 5 21 0 0 0)))))
             eq_refl eq_refl).
Defined.

(** C10: two dates with the same UTC hour and the same UTC minute get the
    same result, whatever their year, month, day, seconds and milliseconds. *)
Theorem angleBetweenClockHands_same_hour_minute (d1 d2 : Date) :
  getUTCHours d1 = getUTCHours d2 ->
  getUTCMinutes d1 = getUTCMinutes d2 ->
  angleBetweenClockHands d1 = angleBetweenClockHands d2.
Proof.
  intros Hh Hm. unfold angleBetweenClockHands, new_Date_copy.
  destruct d1 as [v1], d2 as [v2]. cbn [DateValue].
  rewrite Hh, Hm. reflexivity.
Qed.

Lemma angleBetweenClockHands_same_hour_minute_witness :
  angleBetweenClockHands (new_Date_number (Date_UTC 2016 3 5 21 0 0 0))
  = angleBetweenClockHands (new_Date_number (Date_UTC 1970 0 1 21 0 59 999)).
Proof.
  exact (angleBetweenClockHands_same_hour_minute
           (new_Date_number (Date_UTC 2016 3 5 21 0 0 0))
           (new_Date_number (Date_UTC 1970 0 1 21 0 59 999)) eq_refl eq_refl).
Defined.

(** A decidable property of a clock face holds of all if it evaluates to true
    on the 1440 of them. *)
Lemma clock_faces (P : Z -> Z -> bool) :
  forallb (fun m => forallb (fun h => P (Z.of_nat h) (Z.of_nat m)) (seq 0 24))
          (seq 0 60) = true ->
  forall h m, 0 <= h < 24 -> 0 <= m < 60 -> P h m = true.
Proof.
  intros H h m Hh Hm. rewrite forallb_forall in H.
  specialize (H (Z.to_nat m)). rewrite forallb_forall in H.
  specialize (H ltac:(apply in_seq; lia) (Z.to_nat h) ltac:(apply in_seq; lia)).
  now rewrite !Z2Nat.id in H by lia.
Qed.

Lemma angle_at_clock (t : Z) :
  angleBetweenClockHands (mkDate (Int t))
  = angleBetweenClockHands (at_clock (HourFromTime t) (MinFromTime t)).
Proof.
  destruct (fields_in_range t) as [Hh Hm].
  destruct (at_clock_fields _ _ Hh Hm) as [Eh Em].
  apply angle_reads_hour_and_minute; [now rewrite Eh | now rewrite Em].
Qed.

(** X9: on every valid date the result is a number from 0 up to, and not
    including, 2 PI. *)
Theorem angleBetweenClockHands_range (t : Z) :
  (0 <=? angleBetweenClockHands (mkDate (Int t)))%float = true
  /\ (angleBetweenClockHands (mkDate (Int t)) <? 2 * Math_PI)%float = true.
Proof.
  destruct (fields_in_range t) as [Hh Hm]. rewrite angle_at_clock.
  apply andb_prop.
  apply (clock_faces
           (fun h m => (0 <=? angleBetweenClockHands (at_clock h m))%float
                       && (angleBetweenClockHands (at_clock h m) <? 2 * Math_PI)%float));
    [vm_compute; reflexivity | assumption..].
Qed.

(** X10: the result is NaN exactly when the date is an Invalid Date. *)
Theorem angleBetweenClockHands_nan (date : Date) :
  PrimFloat.is_nan (angleBetweenClockHands date) = negb (is_valid date).
Proof.
  destruct date as [[|t]]; [vm_compute; reflexivity|].
  destruct (fields_in_range t) as [Hh Hm]. rewrite angle_at_clock.
  cbn [is_valid DateValue negb].
  apply negb_true_iff.
  apply (clock_faces
           (fun h m => negb (PrimFloat.is_nan (angleBetweenClockHands (at_clock h m)))));
    [vm_compute; reflexivity | assumption..].
Qed.

Lemma fields_after_12_hours (t : Z) :
  HourFromTime (t + 43200000) = (HourFromTime t + 12) mod 24
  /\ MinFromTime (t + 43200000) = MinFromTime t.
Proof.
  unfold HourFromTime, MinFromTime, msPerHour, msPerMinute, HoursPerDay, MinutesPerHour.
  split; Z.to_euclidean_division_equations; lia.
Qed.

(** X11: the result is the same twelve hours later, as long as that is
    still a valid date. *)
Theorem angleBetweenClockHands_period (t : Z) :
  Z.abs t <= 8640000000000000 ->
  Z.abs (t + 43200000) <= 8640000000000000 ->
  angleBetweenClockHands (new_Date_number (Int (t + 43200000)))
  = angleBetweenClockHands (new_Date_number (Int t)).
Proof.
  intros Ht Ht'. unfold new_Date_number, TimeClip.
  destruct (Z.leb_spec (Z.abs t) 8640000000000000); [|lia].
  destruct (Z.leb_spec (Z.abs (t + 43200000)) 8640000000000000); [|lia].
  destruct (fields_in_range t) as [Hh Hm].
  destruct (fields_after_12_hours t) as [Eh Em].
  rewrite !angle_at_clock, Eh, Em.
  apply FloatAxioms.Leibniz.eqb_spec.
  apply (clock_faces
           (fun h m => PrimFloat.Leibniz.eqb
                         (angleBetweenClockHands (at_clock ((h + 12) mod 24) m))
                         (angleBetweenClockHands (at_clock h m))));
    [vm_compute; reflexivity | assumption..].
Qed.

Lemma angleBetweenClockHands_period_witness :
  angleBetweenClockHands (new_Date_number (Int (1459890000000 + 43200000)))
  = angleBetweenClockHands (new_Date_number (Int 1459890000000)).
Proof.
  exact (angleBetweenClockHands_period 1459890000000 ltac:(lia) ltac:(lia)).
Defined.

(** At the end of the range the later date does not exist: the constructor
    gives an Invalid Date and the result is NaN. *)
Example angleBetweenClockHands_period_end_of_range :
  angleBetweenClockHands (new_Date_number (Int 8640000000000000)) = 0%float
  /\ PrimFloat.is_nan
       (angleBetweenClockHands (new_Date_number (Int (8640000000000000 + 43200000))))
     = true.
Proof. split; vm_compute; reflexivity. Qed.

(** X12: the result is 0 exactly at 00:00 and 12:00 UTC, the only whole
    minutes at which the two hands coincide. *)
Theorem angleBetweenClockHands_zero (t : Z) :
  angleBetweenClockHands (mkDate (Int t)) = 0%float
  <-> HourFromTime t mod 12 = 0 /\ MinFromTime t = 0.
Proof.
  destruct (fields_in_range t) as [Hh Hm]. rewrite angle_at_clock.
  pose proof (clock_faces
                (fun h m => Bool.eqb
                              (PrimFloat.Leibniz.eqb
                                 (angleBetweenClockHands (at_clock h m)) 0)
                              ((h mod 12 =? 0) && (m =? 0)))
                ltac:(vm_compute; reflexivity) _ _ Hh Hm) as H.
  cbv beta in H. apply eqb_prop in H.
  rewrite <- FloatAxioms.Leibniz.eqb_spec, H, andb_true_iff, !Z.eqb_eq. reflexivity.
Qed.

End ClockAngle.

(** ** parseDataFromRfc2822 and parseDataFromIso8601 *)

Section Parsing.

Variable Date_parse : string -> number.

(** The two functions are one and the same call of the [Date] constructor. *)
Lemma parsers_agree (value : string) :
  parseDataFromRfc2822 Date_parse value = parseDataFromIso8601 Date_parse value.
Proof. reflexivity. Qed.

Lemma digit_starts_no_day_name (c : ascii) (s : string) :
  is_digit c = true -> read_name day_names 0 (String c s) = None.
Proof.
  intros H.
  destruct c as [[] [] [] [] [] [] [] []]; try discriminate H; reflexivity.
Qed.

Lemma iso8601_starts_with_year (s : string) (t : Z) :
  parse_iso8601 s = Some t ->
  exists c1 c2 c3 c4 r,
    s = String c1 (String c2 (String c3 (String c4 r)))
    /\ is_digit c1 = true /\ is_digit c2 = true
    /\ is_digit c3 = true /\ is_digit c4 = true.
Proof.
  unfold parse_iso8601.
  destruct s as [|c1 [|c2 [|c3 [|c4 r]]]]; cbn [read_digits];
    try discriminate;
    repeat match goal with
           | |- context [if is_digit ?c then _ else _] =>
               destruct (is_digit c) eqn:?; try discriminate
           end.
  intros _. now exists c1, c2, c3, c4, r.
Qed.

(** No string is of both grammars: an ISO 8601 string starts with four
    digits, an RFC 2822 one with a day name or a day of at most two digits. *)
Lemma grammars_disjoint (s : string) (t : Z) :
  parse_iso8601 s = Some t -> parse_rfc2822 s = None.
Proof.
  intros H. apply iso8601_starts_with_year in H.
  destruct H as (c1 & c2 & c3 & c4 & r & -> & H1 & H2 & H3 & H4).
  unfold parse_rfc2822. rewrite digit_starts_no_day_name by assumption.
  cbn [span_digits]. rewrite H1, H2, H3, H4.
  match goal with
  | |- context [span_digits r ?a ?k] =>
      pose proof (span_digits_count r a k) as Hk;
      destruct (span_digits r a k) as [[day k'] s']
  end.
  cbn [fst snd] in Hk.
  destruct (Nat.leb_spec k' 2); [lia|].
  now rewrite andb_false_r.
Qed.

(** Were each function to reject what is not of its own grammar, the two,
    being the same function, would reject every string. *)
Lemma rejecting_both_rejects_all :
  rejects_nonconforming conforms_rfc2822 (parseDataFromRfc2822 Date_parse) ->
  rejects_nonconforming conforms_iso8601 (parseDataFromIso8601 Date_parse) ->
  forall s, parseDataFromRfc2822 Date_parse s = InvalidDate.
Proof.
  intros Hrfc Hiso s.
  destruct (parse_iso8601 s) as [t|] eqn:E.
  - apply Hrfc. unfold conforms_rfc2822. now rewrite (grammars_disjoint s t E).
  - rewrite parsers_agree. apply Hiso. unfold conforms_iso8601. now rewrite E.
Qed.

(** So on any host that parses at least one string, one of the two accepts a
    string that is not of its grammar. *)
Lemma accepting_host_refutes (s : string) :
  is_valid (new_Date_string Date_parse s) = true ->
  ~ (rejects_nonconforming conforms_rfc2822 (parseDataFromRfc2822 Date_parse)
     /\ rejects_nonconforming conforms_iso8601 (parseDataFromIso8601 Date_parse)).
Proof.
  intros Hv [Hrfc Hiso].
  pose proof (rejecting_both_rejects_all Hrfc Hiso s) as H.
  unfold parseDataFromRfc2822 in H. rewrite H in Hv. discriminate.
Qed.


End Parsing.



(** The same on every host that reads that string as ECMAScript requires. *)
Lemma parseDataFromRfc2822_accepts_iso8601_any_host (Date_parse : string -> number) :
  Date_parse "2016-01-19T08:07:37Z" = Date_UTC 2016 0 19 8 7 37 0 ->
  ~ rejects_nonconforming conforms_rfc2822 (parseDataFromRfc2822 Date_parse).
Proof.
  intros Hhost H. specialize (H "2016-01-19T08:07:37Z" eq_refl).
  unfold parseDataFromRfc2822, new_Date_string in H. rewrite Hhost in H.
  discriminate H.
Qed.

(** Of the three inputs the source documents for [parseDataFromRfc2822], two
    are not RFC 2822 dates. *)
Example parseDataFromRfc2822_documented_inputs :
  map conforms_rfc2822
      ["December 17, 1995 03:24:00"; "Tue, 26 Jan 2016 13:48:02 GMT";
       "Sun, 17 May 1998 03:00:00 GMT+01"]%list
  = [false; true; false]%list.
Proof. reflexivity. Qed.

(** And the other way round: an RFC 2822 date given to [parseDataFromIso8601]. *)
Example parseDataFromIso8601_accepts_rfc2822 :
  conforms_iso8601 "Tue, 26 Jan 2016 13:48:02 GMT" = false
  /\ parseDataFromIso8601 reference_Date_parse "Tue, 26 Jan 2016 13:48:02 GMT"
     = new_Date_number (Date_UTC 2016 0 26 13 48 2 0).
Proof. split; reflexivity. Qed.

